(** * Shallow embedding of the edge agent of openziti-remote-maintenance

    Sources: [src/edge-agent/edge_agent.py] (the exec, files and forward
    handlers of the edge device) and [src/operator-dashboard/operator_cli.py]
    (the operator's client: commands, file transfers and forwarding).

    Conventions of the embedding:
    - a Python [str] is a Rocq [string] holding its UTF-8 encoding; a
      Python [bytes] is a [list byte];
    - Python values built by [json.loads] and the dictionaries the handlers
      send are [pyval]s; a dictionary is an association list (later keys win
      on lookup, as [json.loads] keeps the last duplicate);
    - Python exceptions are values of [py_exc], threaded through the small
      error monad [res];
    - the file system is a [gmap] from absolute paths, split in components,
      to entries (directory or regular file);
    - the outside world (bytes read from sockets, what a spawned process
      does, wall-clock readings) is an explicit oracle argument. *)

From Stdlib Require Import String Ascii Strings.Byte ZArith QArith Qround List Lia.
From stdpp Require Import base gmap strings list.

Open Scope Z_scope.

(* ================================================================= *)
(** ** Python values and exceptions *)

#[local] Unset Elimination Schemes.
Inductive pyval :=
| PNone
| PBool (b : bool)
| PInt (z : Z)
| PStr (s : string)
| PBytes (bs : list byte)
| PList (l : list pyval)
| PDict (kvs : list (string * pyval)).
#[local] Set Elimination Schemes.

Inductive exc_kind :=
| ValueError | TypeError | AttributeError | OSError | UnicodeDecodeError.

Record py_exc := PyExc { exc_type : exc_kind; exc_msg : string }.

(** The error monad: a computation returns a value or raises. *)
Inductive res (A : Type) :=
| Ok (a : A)
| Raise (e : py_exc).
Arguments Ok {A} a.
Arguments Raise {A} e.

#[global] Instance res_ret : MRet res := fun A a => Ok a.
#[global] Instance res_bind : MBind res := fun A B k m =>
  match m with Ok a => k a | Raise e => Raise e end.

Definition type_name (v : pyval) : string :=
  match v with
  | PNone => "NoneType" | PBool _ => "bool" | PInt _ => "int"
  | PStr _ => "str" | PBytes _ => "bytes" | PList _ => "list"
  | PDict _ => "dict"
  end.

(** Python truthiness ([not x]). *)
Definition truthy (v : pyval) : bool :=
  match v with
  | PNone => false
  | PBool b => b
  | PInt z => negb (z =? 0)
  | PStr s => negb (String.eqb s "")
  | PBytes bs => negb (Nat.eqb (List.length bs) 0)
  | PList l => negb (Nat.eqb (List.length l) 0)
  | PDict kvs => negb (Nat.eqb (List.length kvs) 0)
  end.

Fixpoint assoc_last (k : string) (kvs : list (string * pyval)) : option pyval :=
  match kvs with
  | [] => None
  | (k', v) :: rest =>
      match assoc_last k rest with
      | Some w => Some w
      | None => if String.eqb k k' then Some v else None
      end
  end.

(** [obj.get(k, default)]: only a dict has [get]. *)
Definition py_get_default (obj : pyval) (k : string) (d : pyval) : res pyval :=
  match obj with
  | PDict kvs =>
      match assoc_last k kvs with Some v => Ok v | None => Ok d end
  | _ => Raise (PyExc AttributeError
                  ("'" +:+ type_name obj +:+ "' object has no attribute 'get'"))
  end.

Definition py_get (obj : pyval) (k : string) : res pyval :=
  py_get_default obj k PNone.

(** [str(i)] for an int. *)
Fixpoint digits_of_pos (fuel : nat) (n : Z) (acc : string) : string :=
  match fuel with
  | O => acc
  | S f =>
      let d := ascii_of_nat (48 + Z.to_nat (n mod 10)) in
      if n <? 10 then String d acc
      else digits_of_pos f (n / 10) (String d acc)
  end.

Definition str_of_int (z : Z) : string :=
  if z <? 0 then "-" +:+ digits_of_pos 64 (- z) ""
  else digits_of_pos 64 z "".

(** [str(v)] as used in f-strings; containers use a plain repr of their
    elements (string escapes of [repr] are not reproduced). *)
Fixpoint py_repr (v : pyval) : string :=
  match v with
  | PNone => "None"
  | PBool true => "True"
  | PBool false => "False"
  | PInt z => str_of_int z
  | PStr s => "'" +:+ s +:+ "'"
  | PBytes _ => "b'...'"
  | PList l =>
      "[" +:+ (fix go (l : list pyval) : string :=
                match l with
                | [] => ""
                | [x] => py_repr x
                | x :: xs => py_repr x +:+ ", " +:+ go xs
                end) l +:+ "]"
  | PDict kvs =>
      "{" +:+ (fix go (kvs : list (string * pyval)) : string :=
                match kvs with
                | [] => ""
                | [(k, x)] => "'" +:+ k +:+ "': " +:+ py_repr x
                | (k, x) :: xs => "'" +:+ k +:+ "': " +:+ py_repr x +:+ ", " +:+ go xs
                end) kvs +:+ "}"
  end.

Definition py_str (v : pyval) : string :=
  match v with PStr s => s | _ => py_repr v end.

(* ================================================================= *)
(** ** String helpers (Python [str] methods on UTF-8 strings) *)

(** [s.split(sep)] for a one-character separator. *)
Fixpoint split_on (c : ascii) (s : string) : list string :=
  match s with
  | EmptyString => [""]
  | String a s' =>
      match split_on c s' with
      | [] => [] (* unreachable *)
      | w :: ws => if Ascii.eqb a c then "" :: w :: ws else String a w :: ws
      end
  end.

(** [sep.join(l)]. *)
Fixpoint join_with (sep : string) (l : list string) : string :=
  match l with
  | [] => ""
  | [x] => x
  | x :: xs => x +:+ sep +:+ join_with sep xs
  end.

Definition startswith (s pre : string) : bool := String.prefix pre s.

Fixpoint endswith_char (s : string) (c : ascii) : bool :=
  match s with
  | EmptyString => false
  | String a EmptyString => Ascii.eqb a c
  | String _ s' => endswith_char s' c
  end.

Fixpoint has_char (c : ascii) (s : string) : bool :=
  match s with
  | EmptyString => false
  | String a s' => Ascii.eqb a c || has_char c s'
  end.

(** [s.rfind(c)]: index of the last occurrence, or -1. *)
Fixpoint rfind (c : ascii) (s : string) : Z :=
  match s with
  | EmptyString => -1
  | String a s' =>
      let r := rfind c s' in
      if r =? -1 then (if Ascii.eqb a c then 0 else -1) else r + 1
  end.

(** [s[i:]] and [s[:i]] for [0 <= i]. *)
Definition slice_from (i : Z) (s : string) : string :=
  substring (Z.to_nat i) (String.length s - Z.to_nat i) s.
Definition slice_to (i : Z) (s : string) : string :=
  substring 0 (Z.to_nat i) s.

(** [s.rstrip(c)]: drop the trailing run of [c]. *)
Fixpoint rstrip_char (c : ascii) (s : string) : string :=
  match s with
  | EmptyString => EmptyString
  | String a s' =>
      let r := rstrip_char c s' in
      if String.eqb r "" && Ascii.eqb a c then EmptyString else String a r
  end.

Definition slash : ascii := "/"%char.
Definition nul : ascii := Ascii.ascii_of_nat 0.

(* ================================================================= *)
(** ** [posixpath] *)

Module PosixPath.

Definition isabs (s : string) : bool := startswith s "/".

(** [posixpath.join(a, b)]. *)
Definition join (a b : string) : string :=
  if startswith b "/" then b
  else if String.eqb a "" || endswith_char a slash then a +:+ b
  else a +:+ "/" +:+ b.

(** The component loop of [posixpath.normpath]; [new] is [new_comps]
    with its last element first. *)
Fixpoint norm_comps (initial_slashes : Z) (comps new : list string)
  : list string :=
  match comps with
  | [] => rev new
  | comp :: rest =>
      if String.eqb comp "" || String.eqb comp "." then
        norm_comps initial_slashes rest new
      else if negb (String.eqb comp "..")
              || ((initial_slashes =? 0) && match new with [] => true | _ => false end)
              || match new with top :: _ => String.eqb top ".." | [] => false end
      then norm_comps initial_slashes rest (comp :: new)
      else match new with
           | _ :: new' => norm_comps initial_slashes rest new'
           | [] => norm_comps initial_slashes rest new
           end
  end.

Definition normpath (path : string) : string :=
  if String.eqb path "" then "." else
  let initial_slashes :=
    if startswith path "/" then
      (if startswith path "//" && negb (startswith path "///") then 2 else 1)
    else 0 in
  let comps := norm_comps initial_slashes (split_on slash path) [] in
  let p := join_with "/" comps in
  let p := (if initial_slashes =? 2 then "//" else if initial_slashes =? 1 then "/" else "")
           +:+ p in
  if String.eqb p "" then "." else p.

(** [posixpath.abspath(p)] with the process's working directory [cwd]. *)
Definition abspath (cwd p : string) : string :=
  normpath (if isabs p then p else join cwd p).

(** [posixpath.dirname(p)]. *)
Definition dirname (p : string) : string :=
  let i := rfind slash p + 1 in
  let head := slice_to i p in
  if negb (String.eqb head "")
     && negb (forallb (fun a => Ascii.eqb a slash) (list_ascii_of_string head))
  then rstrip_char slash head else head.

(** [posixpath.basename(p)]. *)
Definition basename (p : string) : string :=
  slice_from (rfind slash p + 1) p.

End PosixPath.

(* ================================================================= *)
(** ** [_safe_join] *)

(** [_safe_join(base, rel_path)]; [rel_path] is whatever the request
    carried, and [os.path.join] raises [TypeError] on a non-string. *)
Definition safe_join (cwd base : string) (rel_path : pyval) : res string :=
  match rel_path with
  | PStr rel =>
      let base := PosixPath.abspath cwd base in
      let target := PosixPath.normpath (PosixPath.join base rel) in
      if negb (startswith target (base +:+ "/")) && negb (String.eqb target base)
      then Raise (PyExc ValueError "path outside base directory")
      else Ok target
  | _ => Raise (PyExc TypeError
                  ("join() argument must be str, bytes, or os.PathLike object, not '"
                   +:+ type_name rel_path +:+ "'"))
  end.

(* ================================================================= *)
(** ** Bytes and [base64] *)

Definition bz (b : byte) : Z := Z.of_N (Byte.to_N b).

(** Store an [int] into an [unsigned char]. *)
Definition byte_of_Z (z : Z) : byte :=
  match Byte.of_N (Z.to_N (Z.land z 255)) with Some b => b | None => x00 end.

Definition b64_alphabet : string :=
  "ABCDEFGHIJKLMNOPQRSTUVWXYZabcdefghijklmnopqrstuvwxyz0123456789+/".

(** [table_b2a_base64]. *)
Definition table_b2a (s : Z) : ascii :=
  match String.get (Z.to_nat s) b64_alphabet with Some c => c | None => "A"%char end.

(** [table_a2b_base64]: the sextet of an alphabet character, 255 for any
    other character. *)
Definition table_a2b (c : ascii) : Z :=
  let fix idx (s : string) (i : Z) : Z :=
    match s with
    | EmptyString => 255
    | String a s' => if Ascii.eqb a c then i else idx s' (i + 1)
    end in
  idx b64_alphabet 0.

Definition pad_char : ascii := "="%char.

(** The four sextets of a group of three bytes. *)
Definition sext0 (b0 : byte) : Z := Z.shiftr (bz b0) 2.
Definition sext1 (b0 b1 : byte) : Z :=
  Z.lor (Z.shiftl (Z.land (bz b0) 3) 4) (Z.shiftr (bz b1) 4).
Definition sext2 (b1 b2 : byte) : Z :=
  Z.lor (Z.shiftl (Z.land (bz b1) 15) 2) (Z.shiftr (bz b2) 6).
Definition sext3 (b2 : byte) : Z := Z.land (bz b2) 63.

(** [binascii.b2a_base64(data, newline=False)], three bytes at a time,
    with the [=] padding of a one- or two-byte tail. *)
Fixpoint b64enc (bs : list byte) : list ascii :=
  match bs with
  | b0 :: b1 :: b2 :: rest =>
      table_b2a (sext0 b0) :: table_b2a (sext1 b0 b1)
      :: table_b2a (sext2 b1 b2) :: table_b2a (sext3 b2) :: b64enc rest
  | [b0; b1] =>
      [table_b2a (sext0 b0); table_b2a (sext1 b0 b1);
       table_b2a (Z.shiftl (Z.land (bz b1) 15) 2); pad_char]
  | [b0] =>
      [table_b2a (sext0 b0); table_b2a (Z.shiftl (Z.land (bz b0) 3) 4);
       pad_char; pad_char]
  | [] => []
  end.

(** [base64.b64encode(data).decode("ascii")]. *)
Definition b64encode (bs : list byte) : string := string_of_list_ascii (b64enc bs).

(** The main loop of [binascii.a2b_base64] in non-strict mode: characters
    outside the alphabet are skipped; a pad character counts only once two
    data characters of the current quad have been seen, and ends the input
    once the quad is complete; at the end of the input a partial quad is an
    error. [out] holds the decoded bytes, last first. *)
Fixpoint a2b_loop (cs : list ascii) (quad_pos : nat) (leftchar : Z) (pads : nat)
  (out : list byte) : res (list byte) :=
  match cs with
  | [] =>
      match quad_pos with
      | O => Ok (rev out)
      | 1%nat =>
          Raise (PyExc ValueError
            ("Invalid base64-encoded string: number of data characters ("
             +:+ str_of_int (Z.of_nat (List.length out) / 3 * 4 + 1)
             +:+ ") cannot be 1 more than a multiple of 4"))
      | _ => Raise (PyExc ValueError "Incorrect padding")
      end
  | c :: cs' =>
      if Ascii.eqb c pad_char then
        if (2 <=? quad_pos)%nat then
          (if (4 <=? quad_pos + S pads)%nat then Ok (rev out)
           else a2b_loop cs' quad_pos leftchar (S pads) out)
        else a2b_loop cs' quad_pos leftchar pads out
      else
        let v := table_a2b c in
        if 64 <=? v then a2b_loop cs' quad_pos leftchar pads out
        else
          match quad_pos with
          | O => a2b_loop cs' 1 v 0 out
          | 1%nat =>
              a2b_loop cs' 2 (Z.land v 15) 0
                (byte_of_Z (Z.lor (Z.shiftl leftchar 2) (Z.shiftr v 4)) :: out)
          | 2%nat =>
              a2b_loop cs' 3 (Z.land v 3) 0
                (byte_of_Z (Z.lor (Z.shiftl leftchar 4) (Z.shiftr v 2)) :: out)
          | _ =>
              a2b_loop cs' 0 0 0
                (byte_of_Z (Z.lor (Z.shiftl leftchar 6) v) :: out)
          end
  end.

Definition is_ascii_char (c : ascii) : bool := (nat_of_ascii c <? 128)%nat.

(** [base64.b64decode(s)]: a [str] must be ASCII; anything that is neither
    a [str] nor bytes-like raises [TypeError]. *)
Definition b64decode (v : pyval) : res (list byte) :=
  match v with
  | PStr s =>
      let cs := list_ascii_of_string s in
      if forallb is_ascii_char cs then a2b_loop cs 0 0 0 []
      else Raise (PyExc ValueError "string argument should contain only ASCII characters")
  | PBytes bs =>
      a2b_loop (map ascii_of_byte bs) 0 0 0 []
  | _ =>
      Raise (PyExc TypeError
        ("argument should be a bytes-like object or ASCII string, not '"
         +:+ type_name v +:+ "'"))
  end.

(* ================================================================= *)
(** ** The file system *)

(** An entry of the file system; the root directory is implicit. *)
Inductive entry := EDir | EFile (data : list byte).

Abbreviation fs_state := (gmap (list string) entry).

(** The kernel's view of an absolute path: its non-empty components. The
    handlers only pass normalized absolute paths here. *)
Definition fs_key (p : string) : list string :=
  filter (fun c => negb (String.eqb c "")) (split_on slash p).

Definition is_dir_entry (o : option entry) : bool :=
  match o with Some EDir => true | _ => false end.

(** Every strict ancestor of [k] is a directory (path resolution succeeds
    up to the last component). *)
Fixpoint ancestors_dirs (fs : fs_state) (pre k : list string) : bool :=
  match k with
  | [] | [_] => true
  | c :: k' => is_dir_entry (fs !! (pre ++ [c])) && ancestors_dirs fs (pre ++ [c]) k'
  end.

Definition enoent (p : string) : py_exc :=
  PyExc OSError ("[Errno 2] No such file or directory: '" +:+ p +:+ "'").
Definition eisdir (p : string) : py_exc :=
  PyExc OSError ("[Errno 21] Is a directory: '" +:+ p +:+ "'").
Definition eexist (p : string) : py_exc :=
  PyExc OSError ("[Errno 17] File exists: '" +:+ p +:+ "'").
Definition enotdir (p : string) : py_exc :=
  PyExc OSError ("[Errno 20] Not a directory: '" +:+ p +:+ "'").
Definition embedded_nul : py_exc := PyExc ValueError "embedded null byte".

(** [os.makedirs(name, exist_ok=True)]: create every missing component in
    order, from the root down; a component that is a regular file stops it
    with an [OSError], a component with a NUL character with a [ValueError]
    (the directories created before stay). The result is the state reached
    and the exception raised, if any. *)
Fixpoint makedirs_go (name : string) (pre k : list string) (fs : fs_state)
  : fs_state * option py_exc :=
  match k with
  | [] => (fs, None)
  | c :: k' =>
      if has_char nul c then (fs, Some embedded_nul) else
      let here := pre ++ [c] in
      match fs !! here with
      | None => makedirs_go name here k' (<[here := EDir]> fs)
      | Some EDir => makedirs_go name here k' fs
      | Some (EFile _) =>
          (fs, Some (match k' with [] => eexist name | _ => enotdir name end))
      end
  end.

(** [os.makedirs("")] fails in [mkdir("")]. *)
Definition makedirs (fs : fs_state) (name : string) : fs_state * option py_exc :=
  if String.eqb name "" then (fs, Some (enoent name))
  else makedirs_go name [] (fs_key name) fs.

(** [open(p, "wb")] followed by [write(data)], [flush()] and [fsync()]. *)
Definition write_file (fs : fs_state) (p : string) (data : list byte) : res fs_state :=
  if has_char nul p then Raise embedded_nul else
  let k := fs_key p in
  match k with
  | [] => Raise (eisdir p)
  | _ =>
      if negb (ancestors_dirs fs [] k) then Raise (enoent p) else
      match fs !! k with
      | Some EDir => Raise (eisdir p)
      | _ => Ok (<[k := EFile data]> fs)
      end
  end.

(** [os.path.exists(p)] (false for a path with a NUL character). *)
Definition path_exists (fs : fs_state) (p : string) : bool :=
  if has_char nul p then false else
  match fs_key p with
  | [] => true
  | k => ancestors_dirs fs [] k && bool_decide (is_Some (fs !! k))
  end.

(** [open(p, "rb").read()]. *)
Definition read_file (fs : fs_state) (p : string) : res (list byte) :=
  if has_char nul p then Raise embedded_nul else
  let k := fs_key p in
  match k with
  | [] => Raise (eisdir p)
  | _ =>
      if negb (ancestors_dirs fs [] k) then Raise (enoent p) else
      match fs !! k with
      | Some (EFile d) => Ok d
      | Some EDir => Raise (eisdir p)
      | None => Raise (enoent p)
      end
  end.

(* ================================================================= *)
(** ** Configuration and requests *)

(** The module-level settings read from the environment at start-up. *)
Record config := {
  cwd : string;                       (* os.getcwd(), for abspath *)
  OPS_FILES_BASE_DIR : string;
  ALLOWLIST : list string;
  TIMEOUT_SECS : Z;
  MAX_OUTPUT_CHARS : Z;
  OPS_FORWARD_ALLOWED_HOSTS : list string;
  OPS_FORWARD_ALLOWED_PORTS : list Z;
  OPS_FORWARD_DEFAULT_TARGET_HOST : string;
  OPS_FORWARD_DEFAULT_TARGET_PORT : Z
}.

(** The first line read from a connection, as decoded by
    [json.loads(line.decode("utf-8"))]. *)
Inductive req_line :=
| LineEmpty                       (* readline() returned b"" *)
| LineBadUtf8 (msg : string)      (* UnicodeDecodeError from decode *)
| LineBadJson (msg : string)      (* json.JSONDecodeError *)
| LineJson (req : pyval).

Definition err_resp (code : string) : pyval :=
  PDict [("ok", PBool false); ("error", PStr code)].
Definition err_resp_msg (code msg : string) : pyval :=
  PDict [("ok", PBool false); ("error", PStr code); ("message", PStr msg)].

Definition is_str (v : pyval) (s : string) : bool :=
  match v with PStr s' => String.eqb s' s | _ => false end.

(* ================================================================= *)
(** ** [FilesRequestHandler.handle] *)

Section Files.

(** [hashlib.sha256(data).hexdigest()]: the claims only use that it is a
    function of the bytes, so it is left as a parameter. *)
Variable sha256_hex : list byte -> string.

Definition handler_error (e : py_exc) : pyval := err_resp_msg "handler_error" (exc_msg e).

Definition files_upload (cfg : config) (req : pyval) (fs : fs_state) : pyval * fs_state :=
  match py_get req "path", py_get req "data" with
  | Raise e, _ | _, Raise e => (handler_error e, fs)
  | Ok path, Ok data_b64 =>
      if negb (truthy path) || negb (truthy data_b64) then
        (err_resp_msg "validation" "missing path or data", fs)
      else
      match safe_join (cwd cfg) (OPS_FILES_BASE_DIR cfg) path with
      | Raise (PyExc ValueError _) => (err_resp "path_forbidden", fs)
      | Raise e => (handler_error e, fs)
      | Ok final_path =>
          match makedirs fs (PosixPath.dirname final_path) with
          | (fs1, Some e) => (handler_error e, fs1)
          | (fs1, None) =>
              match b64decode data_b64 with
              | Raise _ => (err_resp "bad_base64", fs1)
              | Ok data =>
                  match write_file fs1 final_path data with
                  | Raise e => (err_resp_msg "io_error" (exc_msg e), fs1)
                  | Ok fs2 =>
                      (PDict [("ok", PBool true); ("path", PStr final_path);
                              ("size", PInt (Z.of_nat (List.length data)));
                              ("sha256", PStr (sha256_hex data))], fs2)
                  end
              end
          end
      end
  end.

Definition files_download (cfg : config) (req : pyval) (fs : fs_state) : pyval * fs_state :=
  match py_get req "path" with
  | Raise e => (handler_error e, fs)
  | Ok path =>
      if negb (truthy path) then (err_resp_msg "validation" "missing path", fs) else
      match safe_join (cwd cfg) (OPS_FILES_BASE_DIR cfg) path with
      | Raise (PyExc ValueError _) => (err_resp "path_forbidden", fs)
      | Raise e => (handler_error e, fs)
      | Ok final_path =>
          if negb (path_exists fs final_path) then
            (err_resp_msg "not_found" "file not found", fs)
          else
          match read_file fs final_path with
          | Raise e => (err_resp_msg "io_error" (exc_msg e), fs)
          | Ok data =>
              (PDict [("ok", PBool true); ("path", PStr final_path);
                      ("size", PInt (Z.of_nat (List.length data)));
                      ("data", PStr (b64encode data));
                      ("sha256", PStr (sha256_hex data))], fs)
          end
      end
  end.

(** One connection of the files service: the response written and the
    file system afterwards. *)
Definition files_handle (cfg : config) (line : req_line) (fs : fs_state)
  : pyval * fs_state :=
  match line with
  | LineEmpty => (err_resp "empty_request", fs)
  | LineBadUtf8 m | LineBadJson m => (err_resp_msg "bad_json" m, fs)
  | LineJson req =>
      match py_get req "op", py_get req "caller" with
      | Raise e, _ | _, Raise e => (handler_error e, fs)
      | Ok op, Ok _ =>
          if is_str op "upload" then files_upload cfg req fs
          else if is_str op "download" then files_download cfg req fs
          else (err_resp_msg "unsupported_op" ("op=" +:+ py_str op), fs)
      end
  end.

End Files.

(* ================================================================= *)
(** ** Text: code points, slicing and decoding *)

Definition is_cont_byte (a : ascii) : bool :=
  (128 <=? nat_of_ascii a)%nat && (nat_of_ascii a <? 192)%nat.

(** [len(s)] counts code points. *)
Fixpoint py_len (s : string) : Z :=
  match s with
  | EmptyString => 0
  | String a s' => (if is_cont_byte a then 0 else 1) + py_len s'
  end.

(** The first [n] code points of [s]. *)
Fixpoint take_chars (n : nat) (s : string) : string :=
  match s with
  | EmptyString => EmptyString
  | String a s' =>
      if is_cont_byte a then String a (take_chars n s')
      else match n with
           | O => EmptyString
           | S n' => String a (take_chars n' s')
           end
  end.

(** Python's bound for [x[:n]] on a sequence of length [len]. *)
Definition slice_bound (n len : Z) : Z :=
  if n <? 0 then Z.max 0 (len + n) else Z.min n len.

(** [s[:n]] on a [str] and on [bytes]. *)
Definition str_prefix (n : Z) (s : string) : string :=
  take_chars (Z.to_nat (slice_bound n (py_len s))) s.
Definition bytes_prefix (n : Z) (bs : list byte) : list byte :=
  firstn (Z.to_nat (slice_bound n (Z.of_nat (List.length bs)))) bs.

Definition in_range (lo hi : Z) (b : byte) : bool := (lo <=? bz b) && (bz b <=? hi).
Definition cont (b : byte) : bool := in_range 128 191 b.

(** Validity for Python's strict UTF-8 decoder (no overlong forms, no
    surrogates, nothing above U+10FFFF). *)
Fixpoint utf8_valid (bs : list byte) : bool :=
  match bs with
  | [] => true
  | b :: r =>
      if bz b <? 128 then utf8_valid r
      else if in_range 194 223 b then
        match r with c1 :: r' => cont c1 && utf8_valid r' | _ => false end
      else if in_range 224 239 b then
        match r with
        | c1 :: c2 :: r' =>
            (if bz b =? 224 then in_range 160 191 c1
             else if bz b =? 237 then in_range 128 159 c1 else cont c1)
            && cont c2 && utf8_valid r'
        | _ => false
        end
      else if in_range 240 244 b then
        match r with
        | c1 :: c2 :: c3 :: r' =>
            (if bz b =? 240 then in_range 144 191 c1
             else if bz b =? 244 then in_range 128 143 c1 else cont c1)
            && cont c2 && cont c3 && utf8_valid r'
        | _ => false
        end
      else false
  end.

(** Universal newlines of text mode: ["\r\n"] and ["\r"] become ["\n"]. *)
Fixpoint translate_newlines (cs : list ascii) : list ascii :=
  match cs with
  | [] => []
  | "013"%char :: "010"%char :: r => "010"%char :: translate_newlines r
  | "013"%char :: r => "010"%char :: translate_newlines r
  | c :: r => c :: translate_newlines r
  end.

(** Text-mode decoding of captured output ([text=True]; the locale's
    preferred encoding, UTF-8, strict errors). *)
Definition decode_text (bs : list byte) : res string :=
  if utf8_valid bs
  then Ok (string_of_list_ascii (translate_newlines (map ascii_of_byte bs)))
  else Raise (PyExc UnicodeDecodeError "'utf-8' codec can't decode bytes: invalid utf-8").

(* ================================================================= *)
(** ** [validate_command] *)

Fixpoint check_args (l : list pyval) : res unit :=
  match l with
  | [] => Ok tt
  | PStr a :: rest =>
      if has_char nul a || (4096 <? py_len a) then
        Raise (PyExc ValueError "invalid argument value")
      else check_args rest
  | _ :: _ => Raise (PyExc ValueError "all args must be strings")
  end.

Definition validate_command (allow : list string) (cmd args : pyval) : res string :=
  match cmd with
  | PStr c =>
      if String.eqb c "" then Raise (PyExc ValueError "cmd must be a non-empty string") else
      let base := PosixPath.basename c in
      if negb (String.eqb base c) then
        Raise (PyExc ValueError "cmd must be a bare command name (no paths)")
      else if negb (existsb (String.eqb base) allow) then
        Raise (PyExc ValueError ("command '" +:+ base +:+ "' not permitted"))
      else
        match args with
        | PNone => Ok base
        | PList l => _ ← check_args l; Ok base
        | _ => Raise (PyExc ValueError "args must be a list of strings")
        end
  | _ => Raise (PyExc ValueError "cmd must be a non-empty string")
  end.

(* ================================================================= *)
(** ** [run_command] *)

(** What the spawned process does, as seen by [subprocess.run]. *)
Inductive proc_outcome :=
| SpawnFailed (msg : string)                  (* e.g. FileNotFoundError *)
| Exited (code : Z) (out err : list byte)     (* finished within the timeout *)
| TimedOut (out err : option (list byte)).    (* TimeoutExpired; partial output *)

(** The environment of one [run_command]: the process and the two readings
    of [time.time()] (seconds). *)
Record proc_env := { outcome : proc_outcome; t_start : Q; t_end : Q }.

(** [int(x)] on a float: truncation toward zero. *)
Definition py_int_of_Q (q : Q) : Z :=
  if Qle_bool 0 q then Qfloor q else - Qfloor (- q).

Definition duration_ms (env : proc_env) : Z :=
  py_int_of_Q ((t_end env - t_start env) * 1000).

Inductive exec_event :=
| ESpawn (argv : list string)
| ESend (resp : pyval)
| EShutdown.

(** [[cmd, *args]]: after [validate_command] the handler's [args] is a
    list of strings or [None]; a non-iterable raises [TypeError]. *)
Definition argv_of (cmd : string) (args : pyval) : res (list string) :=
  match args with
  | PList l =>
      (fix go (l : list pyval) : res (list string) :=
         match l with
         | [] => Ok []
         | PStr a :: r => rest ← go r; Ok (a :: rest)
         | v :: _ => Raise (PyExc TypeError
                      ("expected str, bytes or os.PathLike object, not " +:+ type_name v))
         end) l ≫= fun rest => Ok (cmd :: rest)
  | _ => Raise (PyExc TypeError
           ("Value after * must be an iterable, not " +:+ type_name args))
  end.

Definition exec_error (env : proc_env) (msg : string) : pyval :=
  PDict [("ok", PBool false); ("error", PStr "exec_error"); ("message", PStr msg);
         ("duration_ms", PInt (duration_ms env))].

(** [(e.stdout or "")[:MAX_OUTPUT_CHARS]] on the bytes of a
    [TimeoutExpired]. *)
Definition partial_output (max : Z) (o : option (list byte)) : pyval :=
  match o with
  | None | Some [] => PStr ""
  | Some bs => PBytes (bytes_prefix max bs)
  end.

(** [run_command(cmd, args)]: the spawn it performs and the dict it
    returns. *)
Definition run_command (cfg : config) (cmd : string) (args : pyval) (env : proc_env)
  : list exec_event * pyval :=
  match argv_of cmd args with
  | Raise e => ([], exec_error env (exc_msg e))
  | Ok argv =>
      ([ESpawn argv],
       match outcome env with
       | SpawnFailed msg => exec_error env msg
       | Exited code out err =>
           match decode_text out, decode_text err with
           | Raise e, _ | _, Raise e => exec_error env (exc_msg e)
           | Ok stdout, Ok stderr =>
               PDict [("ok", PBool true); ("exit_code", PInt code);
                      ("stdout", PStr (str_prefix (MAX_OUTPUT_CHARS cfg) stdout));
                      ("stderr", PStr (str_prefix (MAX_OUTPUT_CHARS cfg) stderr));
                      ("duration_ms", PInt (duration_ms env))]
           end
       | TimedOut out err =>
           PDict [("ok", PBool false); ("error", PStr "timeout");
                  ("message", PStr ("command exceeded " +:+ str_of_int (TIMEOUT_SECS cfg) +:+ "s"));
                  ("stdout", partial_output (MAX_OUTPUT_CHARS cfg) out);
                  ("stderr", partial_output (MAX_OUTPUT_CHARS cfg) err);
                  ("duration_ms", PInt (duration_ms env))]
       end)
  end.

(* ================================================================= *)
(** ** [ExecRequestHandler.handle] *)

(** [json.dumps] succeeds unless a [bytes] value occurs. *)
Fixpoint json_ok (v : pyval) : bool :=
  match v with
  | PBytes _ => false
  | PList l => forallb json_ok l
  | PDict kvs => forallb (fun kv => json_ok (snd kv)) kvs
  | _ => true
  end.

(** [self._send(obj)] inside the handler's [try]: a failing [json.dumps]
    raises before anything is written and the handler sends a
    [handler_error] instead. *)
Definition exec_send (obj : pyval) : list exec_event :=
  if json_ok obj then [ESend obj]
  else [ESend (err_resp_msg "handler_error" "Object of type bytes is not JSON serializable")].

Definition exec_body (cfg : config) (line : req_line) (env : proc_env) : list exec_event :=
  match line with
  | LineEmpty => exec_send (err_resp "empty_request")
  | LineBadJson m => exec_send (err_resp_msg "bad_json" m)
  | LineBadUtf8 m => exec_send (err_resp_msg "handler_error" m)
  | LineJson req =>
      match py_get req "caller", py_get req "cmd", py_get_default req "args" (PList []) with
      | Raise e, _, _ | _, Raise e, _ | _, _, Raise e =>
          exec_send (err_resp_msg "handler_error" (exc_msg e))
      | Ok _, Ok cmd, Ok args =>
          match validate_command (ALLOWLIST cfg) cmd args with
          | Raise e => exec_send (err_resp_msg "validation" (exc_msg e))
          | Ok base =>
              let (evs, result) := run_command cfg base args env in
              evs ++ exec_send result
          end
      end
  end.

(** One connection of the exec service; the [finally] clause shuts the
    socket down on every path. *)
Definition exec_handle (cfg : config) (line : req_line) (env : proc_env) : list exec_event :=
  exec_body cfg line env ++ [EShutdown].

(* ================================================================= *)
(** ** [ForwardRequestHandler.handle] and its relay *)

(** The two streams of a forwarding session: the overlay connection
    ([self.request]) and the local TCP connection ([local_sock]). *)
Inductive sock := ZitiSock | LocalSock.

(** What one iteration of a pump observes: [recv] returns some bytes (an
    empty chunk is end-of-stream), [recv] raises, or [recv] returns bytes
    whose [sendall] then raises. *)
Inductive io_step :=
| Recv (d : list byte)
| RecvError
| SendError (d : list byte).

Inductive relay_ev :=
| RSend (dst : sock) (d : list byte)          (* dst.sendall(data) *)
| RSendFailed (dst : sock) (d : list byte)    (* dst.sendall(data) raised *)
| RShutWr (dst : sock).                       (* dst.shutdown(SHUT_WR) *)

(** [relay(src, dst)] reading the steps of [src]: the events it performs
    and whether it has returned; when the steps run out the pump is still
    blocked in [recv]. *)
Fixpoint pump (dst : sock) (steps : list io_step) : list relay_ev * bool :=
  match steps with
  | [] => ([], false)
  | Recv [] :: _ => ([RShutWr dst], true)
  | Recv d :: rest => let (evs, fin) := pump dst rest in (RSend dst d :: evs, fin)
  | RecvError :: _ => ([RShutWr dst], true)
  | SendError d :: _ => ([RSendFailed dst d; RShutWr dst], true)
  end.

Inductive thread := TMain | TZ2L | TL2Z.

Definition thread_eqb (a b : thread) : bool :=
  match a, b with
  | TMain, TMain | TZ2L, TZ2L | TL2Z, TL2Z => true
  | _, _ => false
  end.

Inductive fwd_event :=
| FWrite (obj : pyval)                 (* self._send_error(...) *)
| FConnect (host : string) (port : Z)  (* local_sock.connect((host, port)) *)
| FRelay (e : relay_ev)
| FClose (s : sock).                   (* local_sock.close() *)

(** [self._send_error(code, message)]. *)
Definition send_error (code msg : string) : fwd_event :=
  FWrite (if String.eqb msg "" then err_resp code else err_resp_msg code msg).

(** The policy check of the handler: the target is the configured default,
    checked against the allowed hosts, then the allowed ports. *)
Inductive fwd_decision := FwdForbidden (msg : string) | FwdDial (host : string) (port : Z).

Definition forward_decide (cfg : config) : fwd_decision :=
  let host := OPS_FORWARD_DEFAULT_TARGET_HOST cfg in
  let port := OPS_FORWARD_DEFAULT_TARGET_PORT cfg in
  if negb (existsb (String.eqb host) (OPS_FORWARD_ALLOWED_HOSTS cfg)) then
    FwdForbidden "host not allowed"
  else if negb (existsb (Z.eqb port) (OPS_FORWARD_ALLOWED_PORTS cfg)) then
    FwdForbidden "port not allowed"
  else FwdDial host port.

(** Interleavings of the events of two threads. *)
Inductive interleave {A : Type} : list A -> list A -> list A -> Prop :=
| il_nil : interleave [] [] []
| il_left x l r t : interleave l r t -> interleave (x :: l) r (x :: t)
| il_right x l r t : interleave l r t -> interleave l (x :: r) (x :: t).

Definition tagged (th : thread) (evs : list relay_ev) : list (thread * fwd_event) :=
  map (fun e => (th, FRelay e)) evs.

(** The possible traces of one forwarding connection. [client] is what the
    overlay connection delivers (any header the dialer sends included),
    [local] what the local target delivers, [connect] the outcome of
    [local_sock.connect]. Thread [TZ2L] pumps [self.request] into
    [local_sock], [TL2Z] the other way; the main thread joins both before
    closing [local_sock]. *)
Inductive forward_run (cfg : config) (client local : list io_step) (connect : res unit)
  : list (thread * fwd_event) -> Prop :=
| FwdRejected msg :
    forward_decide cfg = FwdForbidden msg ->
    forward_run cfg client local connect [(TMain, send_error "forbidden" msg)]
| FwdConnectFailed host port e :
    forward_decide cfg = FwdDial host port ->
    connect = Raise e ->
    forward_run cfg client local connect
      [(TMain, FConnect host port); (TMain, send_error "connect_failed" (exc_msg e))]
| FwdRelayed host port t :
    forward_decide cfg = FwdDial host port ->
    connect = Ok tt ->
    interleave (tagged TZ2L (fst (pump LocalSock client)))
               (tagged TL2Z (fst (pump ZitiSock local))) t ->
    forward_run cfg client local connect
      ((TMain, FConnect host port) :: t
       ++ (if snd (pump LocalSock client) && snd (pump ZitiSock local)
           then [(TMain, FClose LocalSock)] else [])).

(** The events of one thread in a trace. *)
Definition thread_events (th : thread) (t : list (thread * fwd_event)) : list fwd_event :=
  map snd (filter (fun p => thread_eqb (fst p) th) t).

(* ================================================================= *)
(** ** Configuration used by the concrete examples *)

(** The defaults of the module-level settings (working directory [/]). *)
Definition default_config : config := {|
  cwd := "/";
  OPS_FILES_BASE_DIR := "/var/local/ops_files";
  ALLOWLIST := ["ls"; "uname"; "whoami"; "echo"];
  TIMEOUT_SECS := 30;
  MAX_OUTPUT_CHARS := 100000;
  OPS_FORWARD_ALLOWED_HOSTS := ["127.0.0.1"; "localhost"];
  OPS_FORWARD_ALLOWED_PORTS := [22; 80; 443; 8080; 5900];
  OPS_FORWARD_DEFAULT_TARGET_HOST := "127.0.0.1";
  OPS_FORWARD_DEFAULT_TARGET_PORT := 8080
|}.

(** The file system after [main()]'s [os.makedirs(OPS_FILES_BASE_DIR)]. *)
Definition startup_fs : fs_state :=
  fst (makedirs ∅ (OPS_FILES_BASE_DIR default_config)).

(** The field [k] of a response dict. *)
Definition resp_field (r : pyval) (k : string) : option pyval :=
  match r with PDict kvs => assoc_last k kvs | _ => None end.

(* ================================================================= *)
(** ** Helpers of the proofs, and the data of the concrete examples *)







Definition relay_dst (e : relay_ev) : sock :=
  match e with RSend d _ | RSendFailed d _ | RShutWr d => d end.

Definition is_shutwr (e : relay_ev) : bool :=
  match e with RShutWr _ => true | _ => false end.

(** The events of one pump: the data it relays (or failed to relay) to
    [dst], then, once it has returned, one [dst.shutdown(SHUT_WR)]. *)
Definition half_close_shape (dst : sock) (evs : list relay_ev) (fin : bool) : Prop :=
  exists sent, evs = sent ++ (if fin then [RShutWr dst] else []) /\
    Forall (fun e => relay_dst e = dst /\ is_shutwr e = false) sent.

Definition c1_request : list (string * pyval) :=
  [("op", PStr "upload"); ("path", PStr "../../etc/cron.d/job"); ("data", PStr "aGk=")].

Definition files_error_codes : list string :=
  ["path_forbidden"; "bad_base64"; "io_error"; "not_found"; "validation";
   "unsupported_op"; "empty_request"; "bad_json"; "handler_error"].

Definition c6_env : proc_env :=
  {| outcome := TimedOut (Some [x7a; x7a; x0a]) None; t_start := 1000; t_end := 1031 |}.

(** The payloads an exec connection writes. *)
Definition sent (evs : list exec_event) : list pyval :=
  flat_map (fun e => match e with ESend r => [r] | _ => [] end) evs.




Definition c4_download : list (string * pyval) :=
  [("op", PStr "download"); ("path", PStr "reports/today.txt")].



(** A forwarding session with the default settings; the client
    sends one byte and closes, the local service answers two bytes and
    then its connection fails. *)
Definition c9_client : list io_step := [Recv [x68]; Recv []].

Definition c9_local : list io_step := [Recv [x6f; x6b]; RecvError].

Definition c9_trace : list (thread * fwd_event) :=
  [(TMain, FConnect "127.0.0.1" 8080);
   (TZ2L, FRelay (RSend LocalSock [x68]));
   (TL2Z, FRelay (RSend ZitiSock [x6f; x6b]));
   (TZ2L, FRelay (RShutWr LocalSock));
   (TL2Z, FRelay (RShutWr ZitiSock));
   (TMain, FClose LocalSock)].

(* ================================================================= *)
(** ** The operator CLI ([operator_cli.py]) *)

(** The one-character string ["\n"]. *)
Definition nl_str : string := String "010"%char EmptyString.

(** [s.lstrip(c)]. *)
Fixpoint lstrip_char (c : ascii) (s : string) : string :=
  match s with
  | EmptyString => EmptyString
  | String a s' => if Ascii.eqb a c then lstrip_char c s' else s
  end.

(** [main()]'s normalisation of the remote path of [upload] and
    [download]: a leading ['/'] run is stripped. *)
Definition cli_remote_path (remote_path : string) : string :=
  if startswith remote_path "/" then lstrip_char slash remote_path else remote_path.



(** What the [download] branch of [main()] does with the parsed response:
    the response it goes on with and the local file system afterwards. An
    exception inside the outer [try] (only [response.get] on a value that is
    not a dict can raise there) gives [download_error]; decoding and
    writing the file are guarded by their own [try] ([write_error]). *)
Definition cli_download_finish (response : pyval) (local_path : string) (lfs : fs_state)
  : pyval * fs_state :=
  match py_get response "ok" with
  | Raise e => (err_resp_msg "download_error" (exc_msg e), lfs)
  | Ok ok =>
      if negb (truthy ok) then (response, lfs) else
      match py_get response "data" with
      | Raise e => (err_resp_msg "download_error" (exc_msg e), lfs)
      | Ok PNone => (err_resp_msg "missing_data" "no data in response", lfs)
      | Ok data_b64 =>
          match b64decode data_b64 with
          | Raise e => (err_resp_msg "write_error" (exc_msg e), lfs)
          | Ok data =>
              match write_file lfs local_path data with
              | Raise e => (err_resp_msg "write_error" (exc_msg e), lfs)
              | Ok lfs' => (response, lfs')
              end
          end
      end
  end.

(** *** White space of [str.strip()] and [str.rstrip()] *)

(** The one-byte white-space code points ([str.isspace]): U+0009 to
    U+000D and U+001C to U+0020. *)
Definition is_space_ascii (a : ascii) : bool :=
  let n := nat_of_ascii a in
  ((9 <=? n) && (n <=? 13))%nat || ((28 <=? n) && (n <=? 32))%nat.

(** The two-byte ones, U+0085 and U+00A0, from their UTF-8 bytes. *)
Definition ws2 (a b : ascii) : bool :=
  (nat_of_ascii a =? 194)%nat && ((nat_of_ascii b =? 133) || (nat_of_ascii b =? 160))%nat.

(** The three-byte ones: U+1680, U+2000 to U+200A, U+2028, U+2029, U+202F,
    U+205F and U+3000. *)
Definition ws3 (a b c : ascii) : bool :=
  let x := nat_of_ascii a in let y := nat_of_ascii b in let z := nat_of_ascii c in
  ((x =? 225) && (y =? 154) && (z =? 128)
   || (x =? 226) && (y =? 128)
      && (((128 <=? z) && (z <=? 138)) || (z =? 168) || (z =? 169) || (z =? 175))
   || (x =? 226) && (y =? 129) && (z =? 159)
   || (x =? 227) && (y =? 128) && (z =? 128))%nat.

(** Drop the leading white space of the bytes of a string. *)
Fixpoint drop_ws (l : list ascii) : list ascii :=
  match l with
  | [] => []
  | a :: r1 =>
      if is_space_ascii a then drop_ws r1 else
      match r1 with
      | [] => l
      | b :: r2 =>
          if ws2 a b then drop_ws r2 else
          match r2 with
          | [] => l
          | c :: r3 => if ws3 a b c then drop_ws r3 else l
          end
      end
  end.

(** Drop the trailing white space, on the reversed bytes. *)
Fixpoint drop_ws_rev (r : list ascii) : list ascii :=
  match r with
  | [] => []
  | c :: r1 =>
      if is_space_ascii c then drop_ws_rev r1 else
      match r1 with
      | [] => r
      | b :: r2 =>
          if ws2 b c then drop_ws_rev r2 else
          match r2 with
          | [] => r
          | a :: r3 => if ws3 a b c then drop_ws_rev r3 else r
          end
      end
  end.

(** [s.rstrip()] and [s.strip()] on a [str]. *)
Definition rstrip_ws (s : string) : string :=
  string_of_list_ascii (rev (drop_ws_rev (rev (list_ascii_of_string s)))).
Definition strip_ws (s : string) : string :=
  rstrip_ws (string_of_list_ascii (drop_ws (list_ascii_of_string s))).

(** [b.rstrip()] on [bytes]: ASCII white space (tab, newline, vertical tab,
    form feed, carriage return, space). *)
Definition is_space_byte (b : byte) : bool :=
  ((9 <=? bz b) && (bz b <=? 13)) || (bz b =? 32).
Fixpoint drop_space_bytes (r : list byte) : list byte :=
  match r with
  | [] => []
  | b :: r' => if is_space_byte b then drop_space_bytes r' else r
  end.
Definition rstrip_bytes (bs : list byte) : list byte := rev (drop_space_bytes (rev bs)).

(** [v.rstrip()]. *)
Definition py_rstrip (v : pyval) : res pyval :=
  match v with
  | PStr s => Ok (PStr (rstrip_ws s))
  | PBytes bs => Ok (PBytes (rstrip_bytes bs))
  | _ => Raise (PyExc AttributeError
                  ("'" +:+ type_name v +:+ "' object has no attribute 'rstrip'"))
  end.

(** [sep.join(items)]: every item must be a [str]. *)
Fixpoint str_items (i : Z) (l : list pyval) : res (list string) :=
  match l with
  | [] => Ok []
  | PStr s :: r => rest ← str_items (i + 1) r; Ok (s :: rest)
  | v :: _ => Raise (PyExc TypeError ("sequence item " +:+ str_of_int i
                       +:+ ": expected str instance, " +:+ type_name v +:+ " found"))
  end.
Definition py_join (sep : string) (l : list pyval) : res string :=
  ss ← str_items 0 l; Ok (join_with sep ss).

(** *** [format_response] *)

(** [if v: output.append(title); output.append(v.rstrip())]. *)
Definition output_section (title : string) (v : pyval) : res (list pyval) :=
  if truthy v then s ← py_rstrip v; Ok [PStr (nl_str +:+ title); s] else Ok [].

Definition format_response (response : pyval) : res string :=
  ok ← py_get response "ok";
  if truthy ok then
    exit_code ← py_get_default response "exit_code" (PInt (-1));
    duration ← py_get_default response "duration_ms" (PInt 0);
    let head := "✅ Command executed successfully (exit code: " +:+ py_str exit_code
                +:+ ", duration: " +:+ py_str duration +:+ "ms)" in
    stdout ← py_get_default response "stdout" (PStr "");
    stderr ← py_get_default response "stderr" (PStr "");
    o1 ← output_section "📤 STDOUT:" stdout;
    o2 ← output_section "⚠️ STDERR:" stderr;
    let o3 := if negb (truthy stdout) && negb (truthy stderr)
              then [PStr "(no output)"] else [] in
    py_join nl_str (PStr head :: o1 ++ o2 ++ o3)
  else
    error ← py_get_default response "error" (PStr "unknown");
    message ← py_get_default response "message" (PStr "No error message");
    stdout ← py_get_default response "stdout" (PStr "");
    stderr ← py_get_default response "stderr" (PStr "");
    o1 ← output_section "📤 STDOUT (partial):" stdout;
    o2 ← output_section "⚠️ STDERR (partial):" stderr;
    py_join nl_str (PStr ("❌ Command failed: " +:+ py_str error)
                    :: PStr ("   " +:+ py_str message) :: o1 ++ o2).

(** *** The end of [main()] *)

(** How [main()] ends: [sys.exit(code)], or returning normally. *)
Inductive main_end := MainExit (code : pyval) | MainReturn.

(** [print(format_response(response))] and the exit that follows: the text
    printed and how [main()] ends; an exception propagates out of
    [main()]. *)
Definition cli_finish (response : pyval) : res (string * main_end) :=
  text ← format_response response;
  ok ← py_get response "ok";
  if truthy ok then
    match response with
    | PDict kvs =>
        match assoc_last "exit_code" kvs with
        | Some code => Ok (text, MainExit code)
        | None => Ok (text, MainReturn)
        end
    | _ => Ok (text, MainReturn) (* unreachable: [get] raised *)
    end
  else Ok (text, MainExit (PInt 1)).

(** *** [execute_command]: framing of the response *)

(** [b"\n" in chunk]. *)
Definition has_nl (chunk : list byte) : bool := existsb (Byte.eqb x0a) chunk.

(** The 1 MiB cap of [execute_command]. *)
Definition max_bytes : Z := 1024 * 1024.

(** The receive loop: [rs] are the results of the successive [sock.recv]
    calls (once they are used up the service has closed the connection and
    [recv] returns [b""]). The chunks kept, or the exception [recv] raised.
    [execute_command] stops at [cap = Some max_bytes]; the loops of the
    [upload] and [download] branches of [main()] have no cap ([None]). *)
Fixpoint recv_chunks (cap : option Z) (total : Z) (rs : list (res (list byte)))
  : res (list (list byte)) :=
  match rs with
  | [] => Ok []
  | Raise e :: _ => Raise e
  | Ok [] :: _ => Ok []
  | Ok chunk :: rest =>
      let total' := total + Z.of_nat (List.length chunk) in
      if has_nl chunk then Ok [chunk]
      else match cap with
           | Some m =>
               if m <=? total' then Ok [chunk]
               else r ← recv_chunks cap total' rest; Ok (chunk :: r)
           | None => r ← recv_chunks cap total' rest; Ok (chunk :: r)
           end
  end.

(** [raw.find(b)]. *)
Fixpoint bytes_find (b : byte) (bs : list byte) : Z :=
  match bs with
  | [] => -1
  | c :: r =>
      if Byte.eqb c b then 0
      else let i := bytes_find b r in if i =? -1 then -1 else i + 1
  end.

(** [nl_idx = raw.find(b"\n"); if nl_idx != -1: raw = raw[:nl_idx]]. *)
Definition cut_line (raw : list byte) : list byte :=
  let nl_idx := bytes_find x0a raw in
  if nl_idx =? -1 then raw else firstn (Z.to_nat nl_idx) raw.

(** [raw.decode("utf-8", errors="replace")]: each maximal ill-formed
    subsequence becomes one U+FFFD (bytes EF BF BD). *)
Definition fffd : list byte := [xef; xbf; xbd].

(** The range of the second byte after a lead byte of three or four
    bytes. *)
Definition second_ok (b c : byte) : bool :=
  if bz b =? 224 then in_range 160 191 c
  else if bz b =? 237 then in_range 128 159 c
  else if bz b =? 240 then in_range 144 191 c
  else if bz b =? 244 then in_range 128 143 c
  else cont c.

Fixpoint decode_replace_go (bs : list byte) : list byte :=
  match bs with
  | [] => []
  | b :: r =>
      if bz b <? 128 then b :: decode_replace_go r
      else if in_range 194 223 b then
        match r with
        | c1 :: r1 =>
            if cont c1 then b :: c1 :: decode_replace_go r1
            else fffd ++ decode_replace_go r
        | [] => fffd
        end
      else if in_range 224 239 b then
        match r with
        | c1 :: r1 =>
            if second_ok b c1 then
              match r1 with
              | c2 :: r2 =>
                  if cont c2
                  then b :: c1 :: c2
                         :: decode_replace_go r2
                  else fffd ++ decode_replace_go r1
              | [] => fffd
              end
            else fffd ++ decode_replace_go r
        | [] => fffd
        end
      else if in_range 240 244 b then
        match r with
        | c1 :: r1 =>
            if second_ok b c1 then
              match r1 with
              | c2 :: r2 =>
                  if cont c2 then
                    match r2 with
                    | c3 :: r3 =>
                        if cont c3
                        then b :: c1 :: c2
                               :: c3 :: decode_replace_go r3
                        else fffd ++ decode_replace_go r2
                    | [] => fffd
                    end
                  else fffd ++ decode_replace_go r1
              | [] => fffd
              end
            else fffd ++ decode_replace_go r
        | [] => fffd
        end
      else fffd ++ decode_replace_go r
  end.

Definition decode_replace (bs : list byte) : string :=
  string_of_list_ascii (map ascii_of_byte (decode_replace_go bs)).

(** The outcome of [json.loads] on the stripped text: a value, a
    [json.JSONDecodeError] with its message, or another exception (such as
    a [RecursionError] on deep nesting). *)
Inductive json_outcome :=
| JsonValue (v : pyval)
| JsonDecodeError (msg : string)
| JsonFailure (e : py_exc).

(** What [execute_command] gets from its connection: the outcomes of
    [openziti.load], [sock.connect] and [sock.sendall], then those of the
    [recv] calls. *)
Record cli_conn := {
  load_result : res unit;
  connect_result : res unit;
  send_result : res unit;
  recvs : list (res (list byte))
}.

(** [{"cmd": cmd, "args": args, "caller": caller}]. *)
Definition cli_exec_request (cmd : string) (args : list string) (caller : string) : pyval :=
  PDict [("cmd", PStr cmd); ("args", PList (map PStr args)); ("caller", PStr caller)].

Section ExecuteCommand.

(** [json.loads], a library function, is a parameter. *)
Variable json_loads : string -> json_outcome.

(** From the bytes received to the dict returned. *)
Definition parse_response (raw : list byte) : pyval :=
  let response_data := decode_replace (cut_line raw) in
  if String.eqb response_data "" then
    err_resp_msg "empty_response" "No data received from service"
  else
    match json_loads (strip_ws response_data) with
    | JsonValue response => response
    | JsonDecodeError m =>
        PDict [("ok", PBool false); ("error", PStr "json_parse_error");
               ("message", PStr m); ("raw", PStr response_data)]
    | JsonFailure e => err_resp_msg "execution_error" (exc_msg e)
    end.

(** [execute_command(cmd, args, service)]: the request sent, if the
    connection got that far, and the dict returned. *)
Definition execute_command (cmd : string) (args : list string) (caller : string)
  (c : cli_conn) : option pyval * pyval :=
  match load_result c with
  | Raise e => (None, err_resp_msg "identity_load_error" (exc_msg e))
  | Ok _ =>
  match connect_result c with
  | Raise e => (None, err_resp_msg "connection_error" (exc_msg e))
  | Ok _ =>
  let request := cli_exec_request cmd args caller in
  match send_result c with
  | Raise e => (Some request, err_resp_msg "execution_error" (exc_msg e))
  | Ok _ =>
  match recv_chunks (Some max_bytes) 0 (recvs c) with
  | Raise e => (Some request, err_resp_msg "execution_error" (exc_msg e))
  | Ok chunks => (Some request, parse_response (concat chunks))
  end
  end
  end
  end.

End ExecuteCommand.

(* ================================================================= *)
(** ** Helpers of the further properties, and their concrete examples *)

(** An argument [validate_command] accepts. *)
Definition arg_ok (v : pyval) : Prop :=
  exists a, v = PStr a /\ has_char nul a = false /\ py_len a <= 4096.

(** A captured output of at most [max] characters (bytes for [bytes]). *)
Definition output_within (max : Z) (v : pyval) : Prop :=
  match v with
  | PStr s => py_len s <= max
  | PBytes bs => Z.of_nat (List.length bs) <= max
  | _ => False
  end.

(** A process that prints [hi] and exits with 0 after 10 ms. *)
Definition xc_env : proc_env :=
  {| outcome := Exited 0 [x68; x69; x0a] []; t_start := 0; t_end := 1 # 100 |}.

(** The key [k] is absent or holds a [str]. *)
Definition str_or_absent (kvs : list (string * pyval)) (k : string) : Prop :=
  match assoc_last k kvs with None | Some (PStr _) => True | Some _ => False end.

(** The shapes of the responses of the files handler. *)
Definition files_shape (r : pyval) : Prop :=
  (exists c, r = err_resp c) \/ (exists c m, r = err_resp_msg c m) \/
  (exists p n s, r = PDict [("ok", PBool true); ("path", PStr p); ("size", PInt n);
                            ("sha256", PStr s)]) \/
  (exists p n d s, r = PDict [("ok", PBool true); ("path", PStr p); ("size", PInt n);
                              ("data", PStr d); ("sha256", PStr s)]).

(** What [format_response] prints for a successful files response. *)
Definition files_ok_text : string :=
  "✅ Command executed successfully (exit code: -1, duration: 0ms)" +:+ nl_str +:+ "(no output)".

(** Partial output of a timed-out process that is non-empty. *)
Definition has_output (o : option (list byte)) : bool :=
  match o with Some (_ :: _) => true | _ => false end.

(** The concrete requests, responses and connections of the examples. *)
Definition xe_request : list (string * pyval) :=
  [("cmd", PStr "echo"); ("args", PList [PStr "hi"])].


Definition local_fs : fs_state := fst (makedirs ∅ "/tmp").

Definition xe_response : pyval :=
  PDict [("ok", PBool true); ("exit_code", PInt 0); ("stdout", PStr "hi
"); ("stderr", PStr ""); ("duration_ms", PInt 10)].

Definition xcli_conn : cli_conn := {|
  load_result := Ok tt; connect_result := Ok tt; send_result := Ok tt;
  recvs := [Ok [x7b]; Ok [x7d; x0a; x41]; Ok [x42]] |}.

Definition xjson (s : string) : json_outcome := JsonValue (PDict [("ok", PBool true)]).

Definition c1_response : pyval :=
  fst (files_handle (fun _ => "") default_config (LineJson (PDict c1_request)) startup_fs).

(** The observable of a forwarding trace, and the settings parser. *)
Definition sock_eqb (a b : sock) : bool :=
  match a, b with
  | ZitiSock, ZitiSock | LocalSock, LocalSock => true
  | _, _ => false
  end.

(** The payloads of the successful [dst.sendall] calls of a trace, in order. *)
Definition sent_to (dst : sock) (t : list (thread * fwd_event)) : list (list byte) :=
  flat_map (fun p => match snd p with
                     | FRelay (RSend d x) => if sock_eqb d dst then [x] else []
                     | _ => []
                     end) t.

(** The chunks a stream yields before its first end-of-stream or error. *)
Fixpoint stream_chunks (steps : list io_step) : list (list byte) :=
  match steps with
  | Recv (b :: d) :: rest => (b :: d) :: stream_chunks rest
  | _ => []
  end.

(** [[c.strip() for c in s.split(",") if c.strip()]]. *)
Definition env_list (s : string) : list string :=
  map strip_ws (List.filter (fun c => negb (String.eqb (strip_ws c) "")) (split_on "," s)).

(* ================================================================= *)
(** * Lemmas *)

#[local] Arguments String.append : simpl nomatch.

Lemma py_get_dict kvs k v : assoc_last k kvs = Some v -> py_get (PDict kvs) k = Ok v.
Proof. intros H. unfold py_get, py_get_default. by rewrite H. Qed.

Lemma py_get_dict_any kvs k : exists v, py_get (PDict kvs) k = Ok v.
Proof.
  unfold py_get, py_get_default. destruct (assoc_last k kvs); eauto.
Qed.

Lemma py_get_default_dict_any kvs k d : exists v, py_get_default (PDict kvs) k d = Ok v.
Proof. unfold py_get_default. destruct (assoc_last k kvs); eauto. Qed.

Lemma rfind_has_char c s : has_char c s = true -> (0 <= rfind c s < Z.of_nat (String.length s))%Z.
Proof.
  induction s as [|a s IH]; simpl; [discriminate|].
  intros H. destruct (Ascii.eqb a c) eqn:Ea; simpl in H.
  - destruct (has_char c s) eqn:Hs.
    + specialize (IH eq_refl). destruct (rfind c s =? -1) eqn:E; [apply Z.eqb_eq in E; lia| lia].
    + assert (rfind c s = -1) as ->.
      { clear IH H. induction s as [|b s IH']; simpl in *; [done|].
        apply orb_false_iff in Hs as [Hb Hs]. rewrite IH' by done. rewrite Hb. done. }
      simpl. lia.
  - specialize (IH H). destruct (rfind c s =? -1) eqn:E; [apply Z.eqb_eq in E; lia| lia].
Qed.

Lemma substring_length_le n m s : (String.length (substring n m s) <= m)%nat.
Proof.
  revert n m. induction s as [|a s IH]; intros [|n] [|m]; simpl; try lia.
  all: try (specialize (IH 0%nat m); lia).
  all: try apply IH.
  all: try (specialize (IH n (S m)); simpl in IH; lia).
Qed.

(** A command containing a separator is not its own basename. *)
Lemma basename_has_slash c : has_char slash c = true -> PosixPath.basename c <> c.
Proof.
  intros H Heq. apply rfind_has_char in H.
  unfold PosixPath.basename, slice_from in Heq.
  pose proof (substring_length_le (Z.to_nat (rfind slash c + 1))
                (String.length c - Z.to_nat (rfind slash c + 1)) c) as L.
  rewrite Heq in L. lia.
Qed.



Lemma existsb_string_In h l : existsb (String.eqb h) l = true <-> In h l.
Proof.
  rewrite existsb_exists. split.
  - intros [x [Hx E]]. apply String.eqb_eq in E. by subst.
  - intros H. exists h. split; [done|]. apply String.eqb_refl.
Qed.

Lemma existsb_Z_In p l : existsb (Z.eqb p) l = true <-> In p l.
Proof.
  rewrite existsb_exists. split.
  - intros [x [Hx E]]. apply Z.eqb_eq in E. by subst.
  - intros H. exists p. split; [done|]. apply Z.eqb_refl.
Qed.

Lemma forward_decide_dial cfg host port :
  forward_decide cfg = FwdDial host port ->
  host = OPS_FORWARD_DEFAULT_TARGET_HOST cfg /\ port = OPS_FORWARD_DEFAULT_TARGET_PORT cfg /\
  In host (OPS_FORWARD_ALLOWED_HOSTS cfg) /\ In port (OPS_FORWARD_ALLOWED_PORTS cfg).
Proof.
  unfold forward_decide.
  destruct (existsb _ (OPS_FORWARD_ALLOWED_HOSTS cfg)) eqn:Eh; simpl; [|discriminate].
  destruct (existsb _ (OPS_FORWARD_ALLOWED_PORTS cfg)) eqn:Ep; simpl; [|discriminate].
  intros [= <- <-]. apply existsb_string_In in Eh. apply existsb_Z_In in Ep. done.
Qed.

Lemma interleave_in {A} (l r t : list A) x :
  interleave l r t -> In x t -> In x l \/ In x r.
Proof.
  induction 1; simpl; [tauto| |]; intros [->|Hx]; try tauto;
    destruct (IHinterleave Hx); tauto.
Qed.

Lemma in_tagged th evs x : In x (tagged th evs) -> exists e, x = (th, FRelay e) /\ In e evs.
Proof.
  unfold tagged. rewrite in_map_iff. intros [e [<- He]]. eauto.
Qed.

(** The events of a forwarding trace that are not relayed bytes come from
    the main thread's fixed prefix and suffix. *)
Lemma forward_run_main_events cfg client local connect t th ev :
  forward_run cfg client local connect t -> In (th, ev) t ->
  (forall e, ev <> FRelay e) ->
  th = TMain /\
  (ev = FClose LocalSock \/ (exists msg, ev = send_error "forbidden" msg) \/
   (exists msg, ev = send_error "connect_failed" msg) \/
   (exists h p, forward_decide cfg = FwdDial h p /\ ev = FConnect h p)).
Proof.
  intros Hrun Hin Hnr. destruct Hrun as [msg Hd|host port e Hd Hc|host port t' Hd Hc Hil].
  - destruct Hin as [[= <- <-]|[]]. eauto 10.
  - destruct Hin as [[= <- <-]|[[= <- <-]|[]]]; eauto 10.
  - destruct Hin as [[= <- <-]|Hin]; [eauto 10|].
    apply in_app_or in Hin as [Hin|Hin].
    + destruct (interleave_in _ _ _ _ Hil Hin) as [H|H];
        apply in_tagged in H as [e [[= _ ->] _]]; by destruct (Hnr e).
    + destruct (_ && _); [|done]. destruct Hin as [[= <- <-]|[]]. eauto.
Qed.

Lemma py_int_of_Q_ge (z : Z) (q : Q) : (inject_Z z <= q)%Q -> (z <= py_int_of_Q q)%Z.
Proof.
  unfold py_int_of_Q. destruct (Qle_bool 0 q) eqn:E; intros H.
  - rewrite <- (Qfloor_Z z). by apply Qfloor_resp_le.
  - rewrite Zle_Qle, inject_Z_opp.
    apply Qle_trans with q; [done|].
    pose proof (Qfloor_le (- q)) as Hf.
    apply Qopp_le_compat in Hf. rewrite Qopp_involutive in Hf. exact Hf.
Qed.

Lemma bytes_prefix_length (max : Z) (bs : list byte) :
  (0 <= max)%Z -> (Z.of_nat (List.length (bytes_prefix max bs)) <= max)%Z.
Proof.
  intros H. unfold bytes_prefix, slice_bound.
  destruct (max <? 0)%Z eqn:E; [lia|].
  rewrite length_firstn. lia.
Qed.




Lemma split_on_cons c s : exists w ws, split_on c s = w :: ws.
Proof.
  induction s as [|a s [w [ws IH]]]; simpl; [eauto|]. rewrite IH.
  destruct (Ascii.eqb a c); eauto.
Qed.

Lemma split_on_app c s1 s2 :
  split_on c (s1 +:+ String c s2) = split_on c s1 ++ split_on c s2.
Proof.
  induction s1 as [|a s1 IH]; simpl.
  - destruct (split_on_cons c s2) as [w [ws ->]]. by rewrite Ascii.eqb_refl.
  - rewrite IH. destruct (split_on_cons c s1) as [w [ws ->]]. simpl.
    by destruct (Ascii.eqb a c).
Qed.

Lemma split_on_nochar c s : has_char c s = false -> split_on c s = [s].
Proof.
  induction s as [|a s IH]; simpl; [done|].
  intros [Ha Hs]%orb_false_iff. by rewrite IH, Ha.
Qed.

Lemma split_on_elem_nochar c s w : In w (split_on c s) -> has_char c w = false.
Proof.
  revert w. induction s as [|a s IH]; simpl; intros w.
  - by intros [<-|[]].
  - destruct (split_on_cons c s) as [w0 [ws E]]. rewrite E in IH |- *.
    destruct (Ascii.eqb a c) eqn:Ea.
    + intros [<-|Hw]; [done|]. by apply IH.
    + intros [<-|Hw]; [|apply IH; by right].
      simpl. rewrite Ea. apply IH. by left.
Qed.












Lemma rfind_nochar c s : has_char c s = false -> rfind c s = -1.
Proof.
  induction s as [|a s IH]; simpl; [done|].
  intros [Ha Hs]%orb_false_iff. rewrite IH, Ha by done. done.
Qed.





Lemma norm_comps_elems is comps new w :
  (forall x, In x comps -> has_char slash x = false) ->
  (forall x, In x new -> x <> "" /\ has_char slash x = false) ->
  In w (PosixPath.norm_comps is comps new) -> w <> "" /\ has_char slash w = false.
Proof.
  revert new. induction comps as [|comp rest IH]; intros new Hc Hn; simpl.
  - rewrite <- in_rev. apply Hn.
  - assert (Hr : forall x, In x rest -> has_char slash x = false) by (intros; apply Hc; by right).
    destruct (String.eqb comp "" || String.eqb comp ".") eqn:E1; [by apply IH|].
    destruct (negb (String.eqb comp "..") || _ || _).
    + apply IH; [done|]. intros x [<-|Hx]; [|by apply Hn].
      split; [intros ->; discriminate E1 | apply Hc; by left].
    + destruct new as [|top new']; apply IH; try done.
      intros x Hx. apply Hn. by right.
Qed.












(** [makedirs] only ever adds directories. *)
Lemma makedirs_go_mono (name : string) (pre k key : list string) (fs : fs_state) :
  fs !! key = Some EDir -> fst (makedirs_go name pre k fs) !! key = Some EDir.
Proof.
  revert pre fs. induction k as [|c k IH]; intros pre fs H; simpl; [done|].
  destruct (has_char nul c); [done|].
  destruct (fs !! (pre ++ [c])) as [[|d]|] eqn:E; [by apply IH|done|].
  apply IH. rewrite lookup_insert_ne; [done|]. intros <-. congruence.
Qed.












Section A2bSteps.
Variables (s : Z) (cs : list ascii) (lc : Z) (p : nat) (out : list byte).
Hypothesis Hs : 0 <= s < 64.





End A2bSteps.











Lemma pump_shape (dst : sock) (steps : list io_step) :
  half_close_shape dst (fst (pump dst steps)) (snd (pump dst steps)).
Proof.
  induction steps as [|[d| |d] steps [sent [E F]]]; simpl.
  - by exists [].
  - destruct d as [|b d]; simpl; [by exists []|].
    destruct (pump dst steps) as [evs fin]; simpl in *.
    exists (RSend dst (b :: d) :: sent). split; [by rewrite E|]. by constructor.
  - by exists [].
  - exists [RSendFailed dst d]. split; [done|]. by repeat constructor.
Qed.

Lemma pump_dst (dst : sock) (steps : list io_step) e :
  In e (fst (pump dst steps)) -> relay_dst e = dst.
Proof.
  destruct (pump_shape dst steps) as [sent [-> F]]. rewrite in_app_iff.
  intros [H|H].
  - rewrite List.Forall_forall in F. apply (F e H).
  - destruct (snd (pump dst steps)); simpl in H; [destruct H as [<-|[]]|destruct H]; done.
Qed.

Lemma thread_events_cons (th : thread) (x : thread * fwd_event) (t : list (thread * fwd_event)) :
  thread_events th (x :: t) =
    (if thread_eqb (fst x) th then [snd x] else []) ++ thread_events th t.
Proof.
  unfold thread_events. rewrite filter_cons.
  case_decide as Hd; destruct (thread_eqb (fst x) th); simpl in *; done.
Qed.

Lemma thread_events_app (th : thread) (t1 t2 : list (thread * fwd_event)) :
  thread_events th (t1 ++ t2) = thread_events th t1 ++ thread_events th t2.
Proof. unfold thread_events. by rewrite filter_app, map_app. Qed.

Lemma thread_events_tagged (th th' : thread) (evs : list relay_ev) :
  thread_events th (tagged th' evs) = if thread_eqb th' th then map FRelay evs else [].
Proof.
  induction evs as [|e evs IH]; simpl.
  - unfold thread_events. simpl. by destruct (thread_eqb th' th).
  - change (tagged th' (e :: evs)) with ((th', FRelay e) :: tagged th' evs).
    rewrite thread_events_cons, IH. simpl. by destruct (thread_eqb th' th).
Qed.

Lemma interleave_thread_events (th : thread) (l r t : list (thread * fwd_event)) :
  interleave l r t ->
  (thread_events th r = [] -> thread_events th t = thread_events th l) /\
  (thread_events th l = [] -> thread_events th t = thread_events th r).
Proof.
  induction 1 as [|x l r t _ [IH1 IH2]|x l r t _ [IH1 IH2]]; [done| |];
    rewrite !thread_events_cons; split; intros H.
  - by rewrite IH1.
  - destruct (thread_eqb (fst x) th); [done|].
    by apply IH2.
  - destruct (thread_eqb (fst x) th); [done|].
    by apply IH1.
  - by rewrite IH2.
Qed.

Lemma interleave_no_close th s (a b : list relay_ev) (t : list (thread * fwd_event)) :
  interleave (tagged TZ2L a) (tagged TL2Z b) t -> ~ In (th, FClose s) t.
Proof.
  intros Hil Hin. destruct (interleave_in _ _ _ _ Hil Hin) as [H|H];
    apply in_tagged in H as [e [[= _] _]].
Qed.

Lemma c9_run : forward_run default_config c9_client c9_local (Ok tt) c9_trace.
Proof.
  apply (FwdRelayed default_config c9_client c9_local (Ok tt) "127.0.0.1" 8080
           [(TZ2L, FRelay (RSend LocalSock [x68])); (TL2Z, FRelay (RSend ZitiSock [x6f; x6b]));
            (TZ2L, FRelay (RShutWr LocalSock)); (TL2Z, FRelay (RShutWr ZitiSock))]);
    [reflexivity|reflexivity|].
  apply il_left, il_right, il_left, il_right, il_nil.
Qed.

(* ================================================================= *)
(** * Claims *)






(** C3. Whatever the dialer sends, the forward handler dials only the
    configured default host and port, and only when the host is in the
    allowed hosts and the port in the allowed ports; a default host that is
    not allowed, or an allowed host with a port that is not allowed, gets a
    [forbidden] error and no dial. *)
Theorem forward_uses_configured_target (cfg : config) (client local : list io_step)
  (connect : res unit) (t : list (thread * fwd_event)) :
  forward_run cfg client local connect t ->
  (forall th h p, In (th, FConnect h p) t ->
     th = TMain /\ h = OPS_FORWARD_DEFAULT_TARGET_HOST cfg /\
     p = OPS_FORWARD_DEFAULT_TARGET_PORT cfg /\
     In h (OPS_FORWARD_ALLOWED_HOSTS cfg) /\ In p (OPS_FORWARD_ALLOWED_PORTS cfg)) /\
  (~ In (OPS_FORWARD_DEFAULT_TARGET_HOST cfg) (OPS_FORWARD_ALLOWED_HOSTS cfg) ->
     t = [(TMain, send_error "forbidden" "host not allowed")]) /\
  (In (OPS_FORWARD_DEFAULT_TARGET_HOST cfg) (OPS_FORWARD_ALLOWED_HOSTS cfg) ->
   ~ In (OPS_FORWARD_DEFAULT_TARGET_PORT cfg) (OPS_FORWARD_ALLOWED_PORTS cfg) ->
     t = [(TMain, send_error "forbidden" "port not allowed")]).
Proof.
  intros Hrun. split; [|split].
  - intros th h p Hin.
    destruct (forward_run_main_events _ _ _ _ _ _ _ Hrun Hin) as [-> Hev]; [done|].
    destruct Hev as [H|[[m H]|[[m H]|[h' [p' [Hd [= -> ->]]]]]]];
      try (unfold send_error in H; discriminate).
    apply forward_decide_dial in Hd. naive_solver.
  - intros Hh. destruct Hrun as [msg Hd|host port e Hd Hc|host port t' Hd Hc Hil].
    + unfold forward_decide in Hd.
      rewrite (proj1 (not_true_iff_false _) (fun H => Hh (proj1 (existsb_string_In _ _) H))) in Hd.
      by injection Hd as <-.
    + apply forward_decide_dial in Hd. naive_solver.
    + apply forward_decide_dial in Hd. naive_solver.
  - intros Hh Hp. destruct Hrun as [msg Hd|host port e Hd Hc|host port t' Hd Hc Hil].
    + unfold forward_decide in Hd.
      rewrite (proj2 (existsb_string_In _ _) Hh) in Hd.
      rewrite (proj1 (not_true_iff_false _) (fun H => Hp (proj1 (existsb_Z_In _ _) H))) in Hd.
      by injection Hd as <-.
    + apply forward_decide_dial in Hd. naive_solver.
    + apply forward_decide_dial in Hd. naive_solver.
Qed.

Lemma forward_uses_configured_target_witness :
  forward_run default_config c9_client c9_local (Ok tt) c9_trace /\
  "127.0.0.1"%string = OPS_FORWARD_DEFAULT_TARGET_HOST default_config /\
  8080 = OPS_FORWARD_DEFAULT_TARGET_PORT default_config.
Proof.
  split; [exact c9_run|].
  destruct (proj1 (forward_uses_configured_target _ _ _ _ _ c9_run) TMain "127.0.0.1" 8080
              ltac:(simpl; tauto)) as (_ & Hh & Hp & _).
  split; [exact Hh | exact Hp].
Defined.







(** C8 (amended). Every [ok:false] response of the files service carries an
    [error] code among [path_forbidden], [bad_base64], [io_error],
    [not_found], [validation], [unsupported_op], and also [empty_request],
    [bad_json] and [handler_error]. *)
Theorem files_error_codes_enumerated (sha : list byte -> string) (cfg : config)
  (line : req_line) (fs : fs_state) :
  resp_field (fst (files_handle sha cfg line fs)) "ok" = Some (PBool false) ->
  exists code, resp_field (fst (files_handle sha cfg line fs)) "error" = Some (PStr code)
               /\ In code files_error_codes.
Proof.
  unfold files_handle, files_upload, files_download, handler_error.
  repeat case_match; simpl; intros Hok; try discriminate;
    eexists; (split; [reflexivity | unfold files_error_codes; simpl; tauto]).
Qed.

Lemma files_error_codes_enumerated_witness :
  resp_field (fst (files_handle (fun _ => "") default_config
                     (LineJson (PDict [("op", PStr "delete")])) startup_fs)) "ok"
    = Some (PBool false) /\
  exists code, resp_field (fst (files_handle (fun _ => "") default_config
                     (LineJson (PDict [("op", PStr "delete")])) startup_fs)) "error"
                 = Some (PStr code) /\ In code files_error_codes.
Proof.
  split; [reflexivity|].
  apply files_error_codes_enumerated. reflexivity.
Defined.

(** C8, counterexample: a connection closed before any request line is
    answered with [error:"empty_request"], outside the enumerated set. *)
Lemma files_empty_request_code :
  resp_field (fst (files_handle (fun _ => "") default_config LineEmpty startup_fs)) "error"
    = Some (PStr "empty_request")
  /\ ~ In "empty_request"%string
         ["path_forbidden"; "bad_base64"; "io_error"; "not_found"; "validation";
          "unsupported_op"]%string.
Proof. split; [reflexivity|]. simpl. intuition discriminate. Qed.

(** C6. When a validated command is spawned and runs past the timeout (the
    clock advancing by at least [TIMEOUT_SECS] seconds), [run_command]
    returns [error:"timeout"] with the message "command exceeded <T>s", the
    partial stdout and stderr of the [TimeoutExpired] each cut to
    [MAX_OUTPUT_CHARS] (an empty string when nothing was captured), and a
    [duration_ms] of at least the timeout. *)
Theorem run_command_timeout (cfg : config) (cmd : string) (args : pyval)
  (env : proc_env) (argv : list string) (out err : option (list byte)) :
  argv_of cmd args = Ok argv ->
  outcome env = TimedOut out err ->
  (inject_Z (TIMEOUT_SECS cfg) <= t_end env - t_start env)%Q ->
  run_command cfg cmd args env =
    ([ESpawn argv],
     PDict [("ok", PBool false); ("error", PStr "timeout");
            ("message", PStr ("command exceeded " +:+ str_of_int (TIMEOUT_SECS cfg) +:+ "s"));
            ("stdout", partial_output (MAX_OUTPUT_CHARS cfg) out);
            ("stderr", partial_output (MAX_OUTPUT_CHARS cfg) err);
            ("duration_ms", PInt (duration_ms env))]) /\
  (1000 * TIMEOUT_SECS cfg <= duration_ms env)%Z /\
  (forall o, partial_output (MAX_OUTPUT_CHARS cfg) o = PStr "" \/
     exists bs, o = Some bs /\
       partial_output (MAX_OUTPUT_CHARS cfg) o = PBytes (bytes_prefix (MAX_OUTPUT_CHARS cfg) bs)) /\
  ((0 <= MAX_OUTPUT_CHARS cfg)%Z -> forall bs,
     (Z.of_nat (List.length (bytes_prefix (MAX_OUTPUT_CHARS cfg) bs)) <= MAX_OUTPUT_CHARS cfg)%Z).
Proof.
  intros Ha Ho Ht. split; [|split; [|split]].
  - unfold run_command. rewrite Ha, Ho. reflexivity.
  - unfold duration_ms. apply py_int_of_Q_ge.
    rewrite inject_Z_mult, Qmult_comm.
    apply Qmult_le_compat_r; [done|]. unfold Qle; simpl; lia.
  - intros [[|b bs]|]; simpl; eauto.
  - intros H bs. by apply bytes_prefix_length.
Qed.

Lemma run_command_timeout_witness :
  argv_of "sleep" (PList [PStr "60"]) = Ok ["sleep"; "60"] /\
  (1000 * TIMEOUT_SECS default_config <= duration_ms c6_env)%Z /\
  snd (run_command default_config "sleep" (PList [PStr "60"]) c6_env)
  = PDict [("ok", PBool false); ("error", PStr "timeout");
           ("message", PStr "command exceeded 30s");
           ("stdout", PBytes [x7a; x7a; x0a]); ("stderr", PStr "");
           ("duration_ms", PInt 31000)].
Proof.
  destruct (run_command_timeout default_config "sleep" (PList [PStr "60"]) c6_env
              ["sleep"; "60"] (Some [x7a; x7a; x0a]) None eq_refl eq_refl)
    as [E [Hd _]]; [vm_compute; discriminate|].
  split; [reflexivity|]. split; [exact Hd|]. rewrite E. vm_compute. reflexivity.
Defined.




(** C9. In every forwarding session, each relay thread performs only
    sends to its destination stream and, once its pump has returned (end of
    stream or an error), a single [shutdown(SHUT_WR)] of that destination as
    its last action; a thread's events are the whole run of its own pump,
    whatever the other thread does (no direction is aborted); the only full
    close is the main thread's [local_sock.close()], which happens only
    when both pumps have returned, as the last event of the session, and
    does happen then. *)
Theorem forward_relay_half_close (cfg : config) (client local : list io_step)
  (connect : res unit) (t : list (thread * fwd_event)) :
  forward_run cfg client local connect t ->
  half_close_shape LocalSock (fst (pump LocalSock client)) (snd (pump LocalSock client)) /\
  half_close_shape ZitiSock (fst (pump ZitiSock local)) (snd (pump ZitiSock local)) /\
  (forall th e, In (th, FRelay e) t ->
     (th = TZ2L /\ relay_dst e = LocalSock) \/ (th = TL2Z /\ relay_dst e = ZitiSock)) /\
  (forall th s, In (th, FClose s) t ->
     th = TMain /\ s = LocalSock /\
     snd (pump LocalSock client) = true /\ snd (pump ZitiSock local) = true /\
     exists t', t = t' ++ [(TMain, FClose LocalSock)] /\ ~ In (TMain, FClose LocalSock) t') /\
  (forall h p, forward_decide cfg = FwdDial h p -> connect = Ok tt ->
     thread_events TZ2L t = map FRelay (fst (pump LocalSock client)) /\
     thread_events TL2Z t = map FRelay (fst (pump ZitiSock local)) /\
     (snd (pump LocalSock client) = true -> snd (pump ZitiSock local) = true ->
      In (TMain, FClose LocalSock) t)).
Proof.
  intros Hrun. split; [apply pump_shape|]. split; [apply pump_shape|].
  destruct Hrun as [msg Hd|host port e Hd Hc|host port t' Hd Hc Hil].
  - split; [|split]; [intros th ev [[=]|[]]|intros th s [[=]|[]]|].
    intros h p Hd'. congruence.
  - split; [|split]; [intros th ev [[=]|[[=]|[]]]|intros th s [[=]|[[=]|[]]]|].
    intros h p _ Hc'. congruence.
  - split; [|split].
    + intros th ev [[=]|Hin]. apply in_app_or in Hin as [Hin|Hin].
      * destruct (interleave_in _ _ _ _ Hil Hin) as [H|H];
          apply in_tagged in H as [e' [[= <- <-] He]]; apply pump_dst in He; auto.
      * destruct (_ && _); [destruct Hin as [[=]|[]]|destruct Hin].
    + intros th s [[=]|Hin]. apply in_app_or in Hin as [Hin|Hin].
      * by destruct (interleave_no_close _ _ _ _ _ Hil Hin).
      * destruct (snd (pump LocalSock client)) eqn:E1,
          (snd (pump ZitiSock local)) eqn:E2; simpl in Hin; try done.
        destruct Hin as [[= <- <-]|[]].
        do 4 (split; [done|]).
        exists ((TMain, FConnect host port) :: t'). split; [done|].
        intros [[=]|Hin]. by apply (interleave_no_close _ _ _ _ _ Hil Hin).
    + intros h p _ _.
      pose proof (interleave_thread_events TZ2L _ _ _ Hil) as [H1 _].
      pose proof (interleave_thread_events TL2Z _ _ _ Hil) as [_ H2].
      rewrite !thread_events_cons, !thread_events_app, !thread_events_tagged in *.
      simpl in *. rewrite H1, H2 by done.
      split; [|split]; [| |intros -> ->; simpl; right; apply in_or_app; right; by left].
      * destruct (_ && _); unfold thread_events; simpl; by rewrite app_nil_r.
      * destruct (_ && _); unfold thread_events; simpl; by rewrite app_nil_r.
Qed.

Lemma forward_relay_half_close_witness :
  thread_events TZ2L c9_trace = [FRelay (RSend LocalSock [x68]); FRelay (RShutWr LocalSock)] /\
  thread_events TL2Z c9_trace =
    [FRelay (RSend ZitiSock [x6f; x6b]); FRelay (RShutWr ZitiSock)] /\
  In (TMain, FClose LocalSock) c9_trace.
Proof.
  destruct (forward_relay_half_close _ _ _ _ _ c9_run) as (_ & _ & _ & _ & H).
  destruct (H "127.0.0.1" 8080 eq_refl eq_refl) as (H1 & H2 & H3).
  split; [rewrite H1; reflexivity|]. split; [rewrite H2; reflexivity|].
  apply H3; reflexivity.
Defined.



(* ================================================================= *)
(** * Further properties of the code *)

(** ** [ExecRequestHandler.handle]: one response per connection *)
Lemma exec_send_single (obj : pyval) : exists r, exec_send obj = [ESend r].
Proof. unfold exec_send. destruct (json_ok obj); eauto. Qed.

(** Every exec connection ends with exactly one response followed by the shutdown of the write side; a process is spawned before it only when the line parsed, named a command, and passed [validate_command] and the construction of [argv]. *)
Theorem exec_handle_one_response (cfg : config) (line : req_line) (env : proc_env) :
  exists pre r, exec_handle cfg line env = pre ++ [ESend r; EShutdown] /\
    (pre = [] \/
     exists req cmd args base argv, pre = [ESpawn argv] /\ line = LineJson req /\
       py_get req "cmd" = Ok cmd /\ py_get_default req "args" (PList []) = Ok args /\
       validate_command (ALLOWLIST cfg) cmd args = Ok base /\ argv_of base args = Ok argv).
Proof.
  unfold exec_handle, exec_body.
  destruct line as [| m | m | req].
  1-3: match goal with |- context [exec_send ?o] =>
         destruct (exec_send_single o) as [r ->] end; exists [], r; auto.
  destruct (py_get req "caller") as [c|e] eqn:Ec;
    [|destruct (exec_send_single (err_resp_msg "handler_error" (exc_msg e))) as [r Hr];
      rewrite Hr; exists [], r; auto].
  destruct (py_get req "cmd") as [cmd|e] eqn:Ecmd;
    [|destruct (exec_send_single (err_resp_msg "handler_error" (exc_msg e))) as [r Hr];
      rewrite Hr; exists [], r; auto].
  destruct (py_get_default req "args" (PList [])) as [args|e] eqn:Eargs;
    [|destruct (exec_send_single (err_resp_msg "handler_error" (exc_msg e))) as [r Hr];
      rewrite Hr; exists [], r; auto].
  destruct (validate_command (ALLOWLIST cfg) cmd args) as [base|e] eqn:Ev;
    [|destruct (exec_send_single (err_resp_msg "validation" (exc_msg e))) as [r Hr];
      rewrite Hr; exists [], r; auto].
  unfold run_command. destruct (argv_of base args) as [argv|e] eqn:Ea.
  - match goal with |- context [exec_send ?o] =>
      destruct (exec_send_single o) as [r ->] end.
    exists [ESpawn argv], r. split; [done|]. right.
    exists req, cmd, args, base, argv. done.
  - match goal with |- context [exec_send ?o] =>
      destruct (exec_send_single o) as [r ->] end.
    exists [], r. auto.
Qed.

(** ** [validate_command] *)
Lemma substring_full s : substring 0 (String.length s) s = s.
Proof. induction s as [|a s IH]; simpl; congruence. Qed.

Lemma basename_noslash c : has_char slash c = false -> PosixPath.basename c = c.
Proof.
  intros H. unfold PosixPath.basename, slice_from. rewrite rfind_nochar by done.
  simpl. rewrite Nat.sub_0_r. apply substring_full.
Qed.

Lemma basename_eq_iff c : PosixPath.basename c = c <-> has_char slash c = false.
Proof.
  split; [|apply basename_noslash].
  intros H. destruct (has_char slash c) eqn:E; [|done]. by apply basename_has_slash in E.
Qed.

Lemma check_args_ok (l : list pyval) : check_args l = Ok tt <-> Forall arg_ok l.
Proof.
  induction l as [|v l IH]; simpl; [split; by auto|].
  split.
  - destruct v as [| | |a| | |]; try discriminate.
    destruct (has_char nul a || (4096 <? py_len a)) eqn:E; [discriminate|].
    apply orb_false_iff in E as [E1 E2]. apply Z.ltb_ge in E2.
    intros H. constructor; [exists a; done|]. by apply IH.
  - intros H. inversion H as [|? ? [a [-> [Hn Hl]]] Hr]; subst.
    rewrite Hn. simpl. replace (4096 <? py_len a) with false by (symmetry; apply Z.ltb_ge; lia).
    by apply IH.
Qed.

(** [validate_command] succeeds exactly when the command is a non-empty [str] without [/] that is in the allowlist, and [args] is [None] or a list of [str] without NUL of at most 4096 characters each; it then returns the command itself. *)
Theorem validate_command_ok (allow : list string) (cmd args : pyval) (base : string) :
  validate_command allow cmd args = Ok base <->
  cmd = PStr base /\ base <> "" /\ has_char slash base = false /\ In base allow /\
  (args = PNone \/ exists l, args = PList l /\ Forall arg_ok l).
Proof.
  split.
  - destruct cmd as [| | |c| | |]; try discriminate. unfold validate_command.
    destruct (String.eqb c "") eqn:E0; [discriminate|].
    destruct (String.eqb (PosixPath.basename c) c) eqn:E1; simpl; [|discriminate].
    apply String.eqb_eq in E1. rewrite E1.
    destruct (existsb (String.eqb c) allow) eqn:E2; simpl; [|discriminate].
    apply existsb_string_In in E2. apply basename_eq_iff in E1.
    assert (c <> "") by (intros ->; discriminate).
    destruct args as [| | | | |l|]; try discriminate.
    + intros [= <-]. auto 10.
    + destruct (check_args l) as [[]|e] eqn:E3; simpl; [|discriminate].
      intros [= <-]. apply check_args_ok in E3. eauto 10.
  - intros (-> & Hne & Hs & Hin & Ha). unfold validate_command.
    replace (String.eqb base "") with false by (symmetry; by apply String.eqb_neq).
    rewrite basename_noslash by done. rewrite String.eqb_refl. simpl.
    rewrite (proj2 (existsb_string_In _ _) Hin). simpl.
    destruct Ha as [->|[l [-> Hl]]]; [done|].
    apply check_args_ok in Hl. by rewrite Hl.
Qed.

Lemma validate_command_ok_witness :
  validate_command (ALLOWLIST default_config) (PStr "echo") (PList [PStr "hi"]) = Ok "echo".
Proof.
  apply (proj2 (validate_command_ok _ _ _ _)).
  split; [done|]. split; [discriminate|]. split; [done|]. split; [simpl; tauto|].
  right. exists [PStr "hi"]. split; [done|]. constructor; [|constructor].
  exists "hi"%string. split; [done|]. split; [done|]. vm_compute. discriminate.
Defined.

(** ** [run_command]: the output cap *)
Lemma py_len_take_chars (n : nat) (s : string) : py_len (take_chars n s) <= Z.of_nat n.
Proof.
  revert n. induction s as [|a s IH]; intros n; simpl; [lia|].
  destruct (is_cont_byte a) eqn:E; simpl; rewrite ?E.
  - specialize (IH n). lia.
  - destruct n as [|n]; simpl; [lia|]. rewrite E. specialize (IH n). lia.
Qed.

Lemma py_len_str_prefix (n : Z) (s : string) : 0 <= n -> py_len (str_prefix n s) <= n.
Proof.
  intros Hn. unfold str_prefix, slice_bound.
  pose proof (py_len_take_chars (Z.to_nat (if n <? 0 then Z.max 0 (py_len s + n)
                                            else Z.min n (py_len s))) s).
  destruct (n <? 0) eqn:E; [lia|]. lia.
Qed.

(** The [stdout] and [stderr] fields of the response of [run_command] hold at most [MAX_OUTPUT_CHARS] characters (bytes for partial output). *)
Theorem run_command_output_capped (cfg : config) (cmd : string) (args : pyval)
  (env : proc_env) (k : string) (v : pyval) :
  0 <= MAX_OUTPUT_CHARS cfg -> (k = "stdout" \/ k = "stderr") ->
  resp_field (snd (run_command cfg cmd args env)) k = Some v ->
  output_within (MAX_OUTPUT_CHARS cfg) v.
Proof.
  intros Hm Hk. unfold run_command.
  destruct (argv_of cmd args) as [argv|e]; simpl;
    [|destruct Hk as [->| ->]; discriminate].
  destruct (outcome env) as [msg|code out err|out err]; simpl.
  - destruct Hk as [->| ->]; discriminate.
  - destruct (decode_text out) as [so|e], (decode_text err) as [se|e'];
      simpl; try (destruct Hk as [->| ->]; discriminate).
    destruct Hk as [->| ->]; simpl; intros [= <-]; simpl; by apply py_len_str_prefix.
  - assert (Hp : forall o, output_within (MAX_OUTPUT_CHARS cfg)
                              (partial_output (MAX_OUTPUT_CHARS cfg) o)).
    { intros [[|b bs]|]; simpl; try lia. by apply bytes_prefix_length. }
    destruct Hk as [->| ->]; simpl; intros [= <-]; apply Hp.
Qed.

Lemma run_command_output_capped_witness :
  resp_field (snd (run_command default_config "echo" (PList [PStr "hi"]) xc_env)) "stdout"
    = Some (PStr "hi
") /\
  output_within (MAX_OUTPUT_CHARS default_config) (PStr "hi
").
Proof.
  assert (H : resp_field (snd (run_command default_config "echo" (PList [PStr "hi"]) xc_env))
                "stdout" = Some (PStr "hi
")) by (vm_compute; reflexivity).
  split; [exact H|].
  exact (run_command_output_capped default_config "echo" (PList [PStr "hi"]) xc_env "stdout"
           _ ltac:(vm_compute; discriminate) (or_introl eq_refl) H).
Defined.

(** ** The files handler: read-only requests *)
Lemma files_download_fs (sha : list byte -> string) (cfg : config) (req : pyval) (fs : fs_state) :
  snd (files_download sha cfg req fs) = fs.
Proof.
  unfold files_download.
  destruct (py_get req "path") as [path|e]; [|done].
  destruct (negb (truthy path)); [done|].
  destruct (safe_join _ _ path) as [final|[[] m]]; try done.
  destruct (negb (path_exists fs final)); [done|].
  by destruct (read_file fs final).
Qed.

(** A files request whose [op] is not [upload] leaves the file system unchanged. *)
Theorem files_handle_readonly_unless_upload (sha : list byte -> string) (cfg : config)
  (line : req_line) (fs : fs_state) :
  (forall req, line = LineJson req -> py_get req "op" <> Ok (PStr "upload")) ->
  snd (files_handle sha cfg line fs) = fs.
Proof.
  intros H. destruct line as [| m | m | req]; try done. simpl.
  specialize (H req eq_refl).
  destruct (py_get req "op") as [op|e]; [|done].
  destruct (py_get req "caller") as [c|e]; [|done].
  destruct (is_str op "upload") eqn:E.
  - destruct op as [| | |s| | |]; try discriminate. simpl in E.
    apply String.eqb_eq in E. subst. by destruct H.
  - destruct (is_str op "download"); [apply files_download_fs|done].
Qed.

Lemma files_handle_readonly_unless_upload_witness :
  snd (files_handle (fun _ => "") default_config (LineJson (PDict c4_download)) startup_fs)
    = startup_fs.
Proof.
  apply files_handle_readonly_unless_upload.
  intros req [= <-]. vm_compute. discriminate.
Defined.






(** ** [os.makedirs] is idempotent *)
Lemma makedirs_go_idem (name : string) (pre k : list string) (fs fs1 : fs_state) :
  makedirs_go name pre k fs = (fs1, None) -> makedirs_go name pre k fs1 = (fs1, None).
Proof.
  revert pre fs. induction k as [|c k IH]; intros pre fs; simpl; [done|].
  destruct (has_char nul c); [done|].
  assert (Hd : forall fs0, fs0 !! (pre ++ [c]) = Some EDir ->
                makedirs_go name (pre ++ [c]) k fs0 = (fs1, None) ->
                fs1 !! (pre ++ [c]) = Some EDir).
  { intros fs0 H0 Hr. replace fs1 with (fst (makedirs_go name (pre ++ [c]) k fs0))
      by by rewrite Hr. by apply makedirs_go_mono. }
  destruct (fs !! (pre ++ [c])) as [[|d]|] eqn:E.
  - intros Hr. rewrite (Hd fs E Hr). by apply (IH _ fs).
  - done.
  - intros Hr. rewrite (Hd _ (lookup_insert_eq _ _ _) Hr). by apply (IH _ _ Hr).
Qed.

(** [os.makedirs(name, exist_ok=True)] is idempotent: after it succeeded, calling it again succeeds and changes nothing. *)
Theorem makedirs_idempotent (fs fs1 : fs_state) (name : string) :
  makedirs fs name = (fs1, None) -> makedirs fs1 name = (fs1, None).
Proof.
  unfold makedirs. destruct (String.eqb name ""); [done|]. apply makedirs_go_idem.
Qed.

Lemma makedirs_idempotent_witness :
  makedirs startup_fs (OPS_FILES_BASE_DIR default_config) = (startup_fs, None).
Proof.
  apply (makedirs_idempotent ∅). vm_compute. reflexivity.
Defined.

(** ** [_safe_join] with the root as base *)
Lemma join_with_nonempty_head (cs : list string) :
  cs <> [] -> (forall w, In w cs -> w <> "" /\ has_char slash w = false) ->
  exists a r, join_with "/" cs = String a r /\ a <> slash.
Proof.
  destruct cs as [|w cs]; [done|]. intros _ H.
  destruct (H w (or_introl eq_refl)) as [Hw Hs].
  destruct w as [|a w]; [done|]. simpl in Hs. apply orb_false_iff in Hs as [Ha _].
  exists a. destruct cs as [|w' cs]; simpl.
  - exists w. split; [done|]. intros ->. done.
  - eexists. split; [reflexivity|]. intros ->. done.
Qed.

(** With [/] as the base directory, [_safe_join] refuses every relative path whose join does not normalise to [/] itself, since no such path starts with [base + os.sep], that is [//]. *)
Theorem safe_join_root_base (cwd rel : string) :
  startswith rel "/" = false ->
  PosixPath.normpath (PosixPath.join "/" rel) <> "/" ->
  safe_join cwd "/" (PStr rel) = Raise (PyExc ValueError "path outside base directory").
Proof.
  intros Hr Hn. unfold safe_join.
  replace (PosixPath.abspath cwd "/") with "/"%string by reflexivity.
  assert (Hj : PosixPath.join "/" rel = String slash rel).
  { unfold PosixPath.join. by rewrite Hr. }
  rewrite Hj in Hn |- *.
  destruct (String.eqb (PosixPath.normpath (String slash rel)) "/") eqn:E;
    [apply String.eqb_eq in E; done|].
  assert (Hs : startswith (PosixPath.normpath (String slash rel)) "//" = false).
  { unfold PosixPath.normpath.
    change (String.eqb (String slash rel) "") with false. cbv iota.
    assert (H2 : startswith (String slash rel) "//" = false).
    { destruct rel as [|a rel]; [done|]. unfold startswith in *. simpl in *.
      destruct (ascii_dec "/" a); [subst; done|done]. }
    assert (H1 : startswith (String slash rel) "/" = true).
    { unfold startswith. simpl. destruct (ascii_dec "/" "/"); [|done]. by destruct rel. }
    rewrite H1, H2. cbn [andb negb]. cbv iota.
    change (1 =? 2) with false. change (1 =? 1) with true. cbv iota.
    assert (Hel : forall w, In w (PosixPath.norm_comps 1 (split_on slash (String slash rel)) []) ->
                            w <> "" /\ has_char slash w = false).
    { intros w. apply norm_comps_elems; [intros x; apply split_on_elem_nochar | by intros x]. }
    revert Hel. generalize (PosixPath.norm_comps 1 (split_on slash (String slash rel)) []).
    intros cs Hel. destruct cs as [|w cs]; [done|].
    destruct (join_with_nonempty_head (w :: cs) ltac:(done) Hel) as (a & r & -> & Ha).
    unfold startswith. cbn -[ascii_dec]. destruct (ascii_dec "/" "/"); [|done]. destruct (ascii_dec "/" a) as [<-|]; [by unfold slash in Ha|done]. }
  simpl. rewrite Hs. done.
Qed.

Lemma safe_join_root_base_witness :
  safe_join "/" "/" (PStr "etc/hosts") = Raise (PyExc ValueError "path outside base directory").
Proof. apply safe_join_root_base; vm_compute; [reflexivity|discriminate]. Defined.

(** ** The operator CLI: remote paths and transfers *)

Lemma lstrip_char_head c s :
  match lstrip_char c s with String a _ => a <> c | EmptyString => True end.
Proof.
  induction s as [|a s IH]; simpl; [done|].
  destruct (Ascii.eqb a c) eqn:E; [done|]. by apply Ascii.eqb_neq in E.
Qed.

Lemma startswith_slash_cons a r : startswith (String a r) "/" = Ascii.eqb a slash.
Proof.
  unfold startswith. cbn -[ascii_dec]. unfold slash.
  destruct (ascii_dec "/" a) as [<-|Hn]; [by rewrite Ascii.eqb_refl; destruct r|].
  symmetry. apply Ascii.eqb_neq. congruence.
Qed.

Lemma cli_remote_path_lstrip r : cli_remote_path r = lstrip_char slash r.
Proof.
  unfold cli_remote_path. destruct r as [|a r]; [done|].
  rewrite startswith_slash_cons. simpl. by destruct (Ascii.eqb a slash).
Qed.

(** The CLI strips the leading slashes of a remote path: the path it sends never starts with [/], and a further leading slash makes no difference. *)
Theorem cli_remote_path_relative (r : string) :
  startswith (cli_remote_path r) "/" = false /\
  cli_remote_path (String slash r) = cli_remote_path r.
Proof.
  rewrite !cli_remote_path_lstrip. split.
  - pose proof (lstrip_char_head slash r) as H.
    destruct (lstrip_char slash r) as [|a s]; [done|].
    rewrite startswith_slash_cons. by apply Ascii.eqb_neq.
  - simpl. by rewrite ?Ascii.eqb_refl.
Qed.






(** ** The operator CLI: what it prints and how it exits *)

Lemma str_items_map (ss : list string) (i : Z) : str_items i (map PStr ss) = Ok ss.
Proof. revert i. induction ss as [|s ss IH]; intros i; [done|]. simpl. by rewrite IH. Qed.

Lemma py_join_map (sep : string) (ss : list string) :
  py_join sep (map PStr ss) = Ok (join_with sep ss).
Proof. unfold py_join. by rewrite str_items_map. Qed.

Lemma output_section_str (title s : string) :
  output_section title (PStr s) =
    Ok (map PStr (if String.eqb s "" then [] else [nl_str +:+ title; rstrip_ws s])).
Proof. unfold output_section. simpl. by destruct (String.eqb s ""). Qed.

Lemma get_str_or_absent (kvs : list (string * pyval)) (k : string) :
  str_or_absent kvs k ->
  exists s, py_get_default (PDict kvs) k (PStr "") = Ok (PStr s).
Proof.
  unfold str_or_absent, py_get_default.
  destruct (assoc_last k kvs) as [[]|]; try done; eauto.
Qed.

Lemma format_response_strs (kvs : list (string * pyval)) :
  str_or_absent kvs "stdout" -> str_or_absent kvs "stderr" ->
  exists text, format_response (PDict kvs) = Ok text.
Proof.
  intros Ho He.
  destruct (get_str_or_absent _ _ Ho) as [so Hso].
  destruct (get_str_or_absent _ _ He) as [se Hse].
  unfold format_response.
  destruct (py_get_dict_any kvs "ok") as [ok Hok]. rewrite Hok. cbn [mbind res_bind].
  destruct (truthy ok).
  - destruct (py_get_default_dict_any kvs "exit_code" (PInt (-1))) as [c Hc].
    destruct (py_get_default_dict_any kvs "duration_ms" (PInt 0)) as [d Hd].
    rewrite Hc, Hd. cbn [mbind res_bind]. rewrite Hso, Hse. cbn [mbind res_bind].
    rewrite !output_section_str. cbn [mbind res_bind].
    unfold truthy. destruct (String.eqb so "") eqn:E1, (String.eqb se "") eqn:E2;
      cbn; eexists; reflexivity.
  - destruct (py_get_default_dict_any kvs "error" (PStr "unknown")) as [er Her].
    destruct (py_get_default_dict_any kvs "message" (PStr "No error message")) as [m Hm].
    rewrite Her, Hm. cbn [mbind res_bind]. rewrite Hso, Hse. cbn [mbind res_bind].
    rewrite !output_section_str. cbn [mbind res_bind].
    destruct (String.eqb so "") eqn:E1, (String.eqb se "") eqn:E2;
      cbn; eexists; reflexivity.
Qed.

Lemma cli_finish_strs (kvs : list (string * pyval)) (b : bool) :
  assoc_last "ok" kvs = Some (PBool b) ->
  str_or_absent kvs "stdout" -> str_or_absent kvs "stderr" ->
  exists text, cli_finish (PDict kvs) =
    Ok (text, if b then match assoc_last "exit_code" kvs with
                        | Some v => MainExit v | None => MainReturn end
              else MainExit (PInt 1)).
Proof.
  intros Hok Ho He. destruct (format_response_strs kvs Ho He) as [text Ht].
  exists text. unfold cli_finish. rewrite Ht. cbn [mbind res_bind].
  rewrite (py_get_dict _ _ _ Hok). cbn [mbind res_bind truthy].
  destruct b; [|done]. by destruct (assoc_last "exit_code" kvs).
Qed.

Lemma exec_send_in (x r : pyval) :
  In (ESend r) (exec_send x) ->
  (r = x /\ json_ok x = true) \/
  r = err_resp_msg "handler_error" "Object of type bytes is not JSON serializable".
Proof.
  unfold exec_send. destruct (json_ok x) eqn:E; intros [H|[]]; injection H; auto.
Qed.

Lemma partial_output_json (max : Z) (o : option (list byte)) :
  json_ok (partial_output max o) = true -> partial_output max o = PStr "".
Proof. destruct o as [[|b bs]|]; done. Qed.

Ltac fail_resp :=
  unfold err_resp, err_resp_msg, exec_error;
  match goal with |- exists t, (resp_field (PDict ?kvs) _ = _ /\ _) \/ _ =>
    destruct (cli_finish_strs kvs false eq_refl I I) as [t Ht];
    exists t; left; split; [reflexivity|exact Ht] end.

Ltac sent_case H :=
  apply exec_send_in in H as [[-> _]| ->]; fail_resp.

(** Given a response the exec handler sends, the CLI ends with [sys.exit(1)] when [ok] is false, and with [sys.exit] of the exit code of the process when [ok] is true. *)
Theorem cli_finish_exec_response (cfg : config) (line : req_line) (env : proc_env)
  (r : pyval) :
  In (ESend r) (exec_handle cfg line env) ->
  exists text,
    (resp_field r "ok" = Some (PBool false) /\ cli_finish r = Ok (text, MainExit (PInt 1)))
    \/ (exists code out err, outcome env = Exited code out err /\
          resp_field r "ok" = Some (PBool true) /\
          cli_finish r = Ok (text, MainExit (PInt code))).
Proof.
  unfold exec_handle. rewrite in_app_iff. intros [Hin|[Hin|[]]]; [|discriminate].
  unfold exec_body in Hin.
  destruct line as [| m | m | req]; try (sent_case Hin).
  destruct (py_get req "caller") as [c|e]; [|sent_case Hin].
  destruct (py_get req "cmd") as [cmd|e]; [|sent_case Hin].
  destruct (py_get_default req "args" (PList [])) as [args|e]; [|sent_case Hin].
  destruct (validate_command (ALLOWLIST cfg) cmd args) as [base|e]; [|sent_case Hin].
  destruct (run_command cfg base args env) as [evs result] eqn:Hrc.
  unfold run_command in Hrc.
  destruct (argv_of base args) as [argv|e];
    [|injection Hrc as <- <-; sent_case Hin].
  injection Hrc as <- <-.
  apply in_app_iff in Hin as [[H|[]]|Hin]; [discriminate|].
  destruct (outcome env) as [msg|code out err|out err] eqn:Eo.
  - sent_case Hin.
  - destruct (decode_text out) as [so|e]; [|sent_case Hin].
    destruct (decode_text err) as [se|e]; [|sent_case Hin].
    apply exec_send_in in Hin as [[-> _]| ->]; [|fail_resp].
    match goal with |- exists t, _ \/ (exists _ _ _, _ /\ resp_field (PDict ?kvs) _ = _ /\ _) =>
      destruct (cli_finish_strs kvs true eq_refl I I) as [t0 Ht0];
      exists t0; right; exists code, out, err; split; [done|]; split; [reflexivity|exact Ht0] end.
  - apply exec_send_in in Hin as [[-> Hj]| ->]; [|fail_resp].
    simpl in Hj. rewrite !andb_true_iff in Hj.
    destruct Hj as (Hj1 & Hj2 & _).
    rewrite (partial_output_json _ _ Hj1), (partial_output_json _ _ Hj2).
    fail_resp.
Qed.

Lemma files_handle_shape (sha : list byte -> string) (cfg : config) (line : req_line)
  (fs : fs_state) : files_shape (fst (files_handle sha cfg line fs)).
Proof.
  unfold files_shape, files_handle, files_upload, files_download, handler_error.
  repeat case_match; simpl; eauto 10.
Qed.

Lemma cli_download_finish_shape (r : pyval) (lp : string) (lfs : fs_state) :
  files_shape r -> files_shape (fst (cli_download_finish r lp lfs)).
Proof.
  unfold files_shape, cli_download_finish.
  intros [[c ->]|[[c [m ->]]|[[p [n [s ->]]]|[p [n [d [s ->]]]]]]]; simpl; eauto 10.
  repeat case_match; simpl; eauto 10.
Qed.

(** Given a files response, or the result the CLI makes of a download, the CLI prints the success line with exit code -1, duration 0ms and [(no output)] and returns when [ok] is true; otherwise it prints the error code and message and ends with [sys.exit(1)]. *)
Theorem cli_finish_files_response (sha : list byte -> string) (cfg : config)
  (line : req_line) (fs : fs_state) (local_path : string) (lfs : fs_state) (r : pyval) :
  r = fst (files_handle sha cfg line fs) \/
  r = fst (cli_download_finish (fst (files_handle sha cfg line fs)) local_path lfs) ->
  (resp_field r "ok" = Some (PBool true) /\ cli_finish r = Ok (files_ok_text, MainReturn))
  \/ (exists code msg, resp_field r "ok" = Some (PBool false) /\
        resp_field r "error" = Some (PStr code) /\
        cli_finish r = Ok ("❌ Command failed: " +:+ code +:+ nl_str +:+ "   " +:+ msg,
                           MainExit (PInt 1))).
Proof.
  intros H. assert (Hs : files_shape r).
  { destruct H as [->| ->]; [|apply cli_download_finish_shape]; apply files_handle_shape. }
  destruct Hs as [[c ->]|[[c [m ->]]|[[p [n [s ->]]]|[p [n [d [s ->]]]]]]].
  - right. exists c, "No error message". split; [done|]. split; [done|]. reflexivity.
  - right. exists c, m. split; [done|]. split; [done|]. reflexivity.
  - left. split; reflexivity.
  - left. split; reflexivity.
Qed.

Lemma partial_output_cases (max : Z) (o : option (list byte)) :
  json_ok (partial_output max o) = negb (has_output o) /\
  (has_output o = false -> partial_output max o = PStr "").
Proof. destruct o as [[|b bs]|]; done. Qed.

(** When an accepted command times out after producing partial output, the exec handler sends a [handler_error] about bytes not being JSON serializable instead of the [timeout] response; the [timeout] response, with empty outputs, is sent only when there is no partial output. *)
Theorem exec_timeout_output_not_serializable (cfg : config) (env : proc_env)
  (kvs : list (string * pyval)) (cmd args : pyval) (base : string) (argv : list string)
  (out err : option (list byte)) :
  assoc_last "cmd" kvs = Some cmd ->
  py_get_default (PDict kvs) "args" (PList []) = Ok args ->
  validate_command (ALLOWLIST cfg) cmd args = Ok base ->
  argv_of base args = Ok argv ->
  outcome env = TimedOut out err ->
  exec_handle cfg (LineJson (PDict kvs)) env =
    [ESpawn argv;
     ESend (if has_output out || has_output err
            then err_resp_msg "handler_error" "Object of type bytes is not JSON serializable"
            else PDict [("ok", PBool false); ("error", PStr "timeout");
                        ("message", PStr ("command exceeded " +:+ str_of_int (TIMEOUT_SECS cfg)
                                          +:+ "s"));
                        ("stdout", PStr ""); ("stderr", PStr "");
                        ("duration_ms", PInt (duration_ms env))]);
     EShutdown].
Proof.
  intros Hc Ha Hv Hargv Ho.
  destruct (py_get_dict_any kvs "caller") as [cl Hcl].
  unfold exec_handle, exec_body, run_command.
  rewrite Hcl, (py_get_dict _ _ _ Hc), Ha, Hv, Hargv, Ho. cbn [mbind res_bind app].
  unfold exec_send.
  destruct (partial_output_cases (MAX_OUTPUT_CHARS cfg) out) as [Jo Eo].
  destruct (partial_output_cases (MAX_OUTPUT_CHARS cfg) err) as [Je Ee].
  cbn [json_ok forallb snd]. rewrite Jo, Je.
  destruct (has_output out) eqn:E1, (has_output err) eqn:E2; simpl; try reflexivity.
  rewrite Eo, Ee by done. reflexivity.
Qed.

(** ** [execute_command]: reading the reply *)

Lemma has_nl_In (ch : list byte) : has_nl ch = true <-> In x0a ch.
Proof.
  unfold has_nl. rewrite existsb_exists. split.
  - intros [b [Hb E]]. apply Byte.byte_dec_bl in E. by subst.
  - intros H. exists x0a. split; [done|]. by apply Byte.byte_dec_lb.
Qed.

(** Splitting a stream whose first line is [line] at a chunk boundary. *)
Lemma first_line_split (a b line rest : list byte) :
  a ++ b = line ++ x0a :: rest -> ~ In x0a line ->
  (In x0a a -> exists r', a = line ++ x0a :: r') /\
  (~ In x0a a -> exists line', line = a ++ line' /\ b = line' ++ x0a :: rest).
Proof.
  intros E Hl. apply app_eq_app in E as [k [[-> Ek]|[-> Ek]]].
  - destruct k as [|x k].
    + simpl in Ek. subst b. rewrite app_nil_r. split.
      * intros H. contradiction.
      * intros _. exists []. by rewrite app_nil_r.
    + injection Ek as -> ->. split; [by eauto|].
      intros H. exfalso. apply H. apply in_or_app. right. by left.
  - split.
    + intros H. exfalso. apply Hl. apply in_or_app. by left.
    + intros _. by exists k.
Qed.

Lemma recv_chunks_first_line (m : Z) (chunks : list (list byte)) (tail : list (res (list byte)))
  (total : Z) (line rest : list byte) :
  Forall (fun ch => ch <> []) chunks ->
  concat chunks = line ++ x0a :: rest -> ~ In x0a line ->
  total + Z.of_nat (length line) < m ->
  exists kept r', recv_chunks (Some m) total (map Ok chunks ++ tail) = Ok kept /\
                  concat kept = line ++ x0a :: r'.
Proof.
  revert total line rest.
  induction chunks as [|ch chunks IH]; intros total line rest Hne Hc Hl Hm.
  { simpl in Hc. by destruct line. }
  inversion Hne as [|? ? Hch Hne']; subst.
  simpl in Hc. destruct (first_line_split _ _ _ _ Hc Hl) as [H1 H2].
  simpl. destruct ch as [|b0 ch0]; [done|].
  destruct (has_nl (b0 :: ch0)) eqn:Hn.
  - apply has_nl_In in Hn. destruct (H1 Hn) as [r' Hr].
    exists [b0 :: ch0], r'. split; [done|]. simpl. by rewrite app_nil_r.
  - assert (Hn' : ~ In x0a (b0 :: ch0)) by (intros H; apply has_nl_In in H; congruence).
    destruct (H2 Hn') as [line' [Eline Erest]].
    assert (Hlen : length line = (length (b0 :: ch0) + length line')%nat)
      by (rewrite Eline; apply length_app).
    assert (Hl' : ~ In x0a line') by (intros H; apply Hl; rewrite Eline; apply in_or_app; by right).
    destruct (IH (total + Z.of_nat (length (b0 :: ch0))) line' rest Hne' Erest Hl' ltac:(lia))
      as [kept [r' [Hk Hck]]].
    destruct (m <=? total + Z.of_nat (length (b0 :: ch0))) eqn:Em; [apply Z.leb_le in Em; lia|].
    rewrite Hk. exists ((b0 :: ch0) :: kept), r'. split; [done|].
    simpl. rewrite Hck, Eline. by rewrite <- app_assoc.
Qed.

Lemma bytes_find_first (line rest : list byte) :
  ~ In x0a line -> bytes_find x0a (line ++ x0a :: rest) = Z.of_nat (length line).
Proof.
  induction line as [|b line IH]; intros Hl; simpl; [done|].
  destruct (Byte.eqb b x0a) eqn:E.
  - apply Byte.byte_dec_bl in E. subst. exfalso. apply Hl. by left.
  - rewrite IH by (intros H; apply Hl; by right).
    destruct (Z.of_nat (length line) =? -1) eqn:E'; [apply Z.eqb_eq in E'; lia|lia].
Qed.

Lemma cut_line_first (line rest : list byte) :
  ~ In x0a line -> cut_line (line ++ x0a :: rest) = line.
Proof.
  intros Hl. unfold cut_line. rewrite bytes_find_first by done.
  destruct (Z.of_nat (length line) =? -1) eqn:E; [apply Z.eqb_eq in E; lia|].
  rewrite Nat2Z.id. apply take_app_length.
Qed.

Lemma cut_line_noline (line : list byte) : ~ In x0a line -> cut_line line = line.
Proof.
  intros Hl. unfold cut_line.
  assert (H : bytes_find x0a line = -1).
  { induction line as [|b line IH]; [done|]. simpl.
    destruct (Byte.eqb b x0a) eqn:E.
    - apply Byte.byte_dec_bl in E. subst. exfalso. apply Hl. by left.
    - rewrite IH by (intros H; apply Hl; by right). done. }
  by rewrite H.
Qed.

(** When the reply of the agent has a newline within its first MiB, [execute_command] parses exactly the first line, whatever follows it and however the reply is split in chunks. *)
Theorem execute_command_first_line (json_loads : string -> json_outcome)
  (cmd : string) (args : list string) (caller : string) (c : cli_conn)
  (chunks : list (list byte)) (tail : list (res (list byte))) (line rest : list byte) :
  load_result c = Ok tt -> connect_result c = Ok tt -> send_result c = Ok tt ->
  recvs c = map Ok chunks ++ tail ->
  Forall (fun ch => ch <> []) chunks ->
  concat chunks = line ++ x0a :: rest ->
  ~ In x0a line ->
  Z.of_nat (length line) < max_bytes ->
  execute_command json_loads cmd args caller c =
    (Some (cli_exec_request cmd args caller), parse_response json_loads line).
Proof.
  intros Hl Hc Hs Hr Hne Hcat Hnl Hlen.
  destruct (recv_chunks_first_line max_bytes chunks tail 0 line rest Hne Hcat Hnl ltac:(lia))
    as [kept [r' [Hk Hck]]].
  unfold execute_command. rewrite Hl, Hc, Hs, Hr, Hk. f_equal.
  unfold parse_response. rewrite Hck, cut_line_first, cut_line_noline by done. reflexivity.
Qed.

Lemma recv_chunks_bound (m total : Z) (rs : list (res (list byte))) (kept : list (list byte)) :
  (forall ch, In (Ok ch) rs -> (length ch <= 4096)%nat) ->
  0 <= total < m ->
  recv_chunks (Some m) total rs = Ok kept ->
  total + Z.of_nat (length (concat kept)) < m + 4096.
Proof.
  revert total kept. induction rs as [|x rs IH]; intros total kept Hb Ht Hr.
  { simpl in Hr. injection Hr as <-. simpl. lia. }
  destruct x as [ch|e]; [|done].
  assert (Hch : (length ch <= 4096)%nat) by (apply Hb; by left).
  simpl in Hr. destruct ch as [|b0 ch0]; [injection Hr as <-; simpl; lia|].
  destruct (has_nl (b0 :: ch0)).
  { injection Hr as <-. simpl concat. rewrite app_nil_r. lia. }
  destruct (m <=? total + Z.of_nat (length (b0 :: ch0))) eqn:Em.
  { injection Hr as <-. simpl concat. rewrite app_nil_r. lia. }
  apply Z.leb_gt in Em.
  destruct (recv_chunks (Some m) (total + Z.of_nat (length (b0 :: ch0))) rs) as [kept'|e]
    eqn:Hk; [|done].
  injection Hr as <-.
  assert (IH' := IH (total + Z.of_nat (length (b0 :: ch0))) kept' (fun ch H => Hb ch (or_intror H)) ltac:(lia) Hk).
  cbn [concat]. rewrite length_app. lia.
Qed.

(** With chunks of at most 4096 bytes, [execute_command] keeps less than 1 MiB plus 4096 bytes of the reply. *)
Theorem execute_command_recv_capped (rs : list (res (list byte))) (kept : list (list byte)) :
  (forall ch, In (Ok ch) rs -> (length ch <= 4096)%nat) ->
  recv_chunks (Some max_bytes) 0 rs = Ok kept ->
  Z.of_nat (length (concat kept)) < max_bytes + 4096.
Proof.
  intros Hb Hr. pose proof (recv_chunks_bound max_bytes 0 rs kept Hb ltac:(unfold max_bytes; lia) Hr).
  lia.
Qed.

(** ** [execute_command]: decoding the reply *)

Lemma second_ok_3 (b c : byte) :
  in_range 224 239 b = true ->
  second_ok b c = (if bz b =? 224 then in_range 160 191 c
                   else if bz b =? 237 then in_range 128 159 c else cont c).
Proof.
  unfold second_ok, in_range at 1. intros H. apply andb_true_iff in H as [H1 H2].
  apply Z.leb_le in H1, H2.
  destruct (bz b =? 224); [done|]. destruct (bz b =? 237); [done|].
  rewrite (proj2 (Z.eqb_neq (bz b) 240)), (proj2 (Z.eqb_neq (bz b) 244)) by lia. done.
Qed.

Lemma second_ok_4 (b c : byte) :
  in_range 240 244 b = true ->
  second_ok b c = (if bz b =? 240 then in_range 144 191 c
                   else if bz b =? 244 then in_range 128 143 c else cont c).
Proof.
  unfold second_ok, in_range at 1. intros H. apply andb_true_iff in H as [H1 H2].
  apply Z.leb_le in H1, H2.
  rewrite (proj2 (Z.eqb_neq (bz b) 224)), (proj2 (Z.eqb_neq (bz b) 237)) by lia. done.
Qed.

Lemma decode_replace_go_valid (bs : list byte) :
  utf8_valid bs = true -> decode_replace_go bs = bs.
Proof.
  remember (length bs) as n eqn:En. assert (Hn : (length bs <= n)%nat) by lia. clear En.
  revert bs Hn. induction n as [|n IH]; intros bs Hn H.
  { by destruct bs; [|simpl in Hn; lia]. }
  destruct bs as [|b r]; [done|]. simpl in Hn.
  cbn [utf8_valid] in H. cbn [decode_replace_go].
  destruct (bz b <? 128); [f_equal; by apply IH; [lia|]|].
  destruct (in_range 194 223 b).
  { destruct r as [|c1 r1]; [done|]. apply andb_true_iff in H as [Hc H]. rewrite Hc.
    do 2 f_equal. apply IH; [simpl in Hn; lia|done]. }
  destruct (in_range 224 239 b) eqn:E3.
  { destruct r as [|c1 [|c2 r2]]; try done. rewrite (second_ok_3 b c1 E3).
    apply andb_true_iff in H as [[H1 H2]%andb_true_iff H]. rewrite H1, H2.
    do 3 f_equal. apply IH; [simpl in Hn; lia|done]. }
  destruct (in_range 240 244 b) eqn:E4; [|done].
  destruct r as [|c1 [|c2 [|c3 r3]]]; try done. rewrite (second_ok_4 b c1 E4).
  apply andb_true_iff in H as [[[H1 H2]%andb_true_iff H3]%andb_true_iff H].
  rewrite H1, H2, H3. do 4 f_equal. apply IH; [simpl in Hn; lia|done].
Qed.

Lemma utf8_valid_app (x y : list byte) :
  utf8_valid x = true -> utf8_valid y = true -> utf8_valid (x ++ y) = true.
Proof.
  remember (length x) as n eqn:En. assert (Hn : (length x <= n)%nat) by lia. clear En.
  revert x Hn. induction n as [|n IH]; intros x Hn Hx Hy.
  { by destruct x; [|simpl in Hn; lia]. }
  destruct x as [|b r]; [done|]. simpl in Hn. cbn [utf8_valid app] in Hx |- *.
  destruct (bz b <? 128); [by apply IH; [lia|..]|].
  destruct (in_range 194 223 b).
  { destruct r as [|c1 r1]; [done|]. apply andb_true_iff in Hx as [Hc Hx].
    cbn [app]. rewrite Hc. apply IH; [simpl in Hn; lia|done|done]. }
  destruct (in_range 224 239 b).
  { destruct r as [|c1 [|c2 r2]]; try done. cbn [app].
    apply andb_true_iff in Hx as [Hc Hx]. rewrite Hc. apply IH; [simpl in Hn; lia|done|done]. }
  destruct (in_range 240 244 b); [|done].
  destruct r as [|c1 [|c2 [|c3 r3]]]; try done. cbn [app].
  apply andb_true_iff in Hx as [Hc Hx]. rewrite Hc. apply IH; [simpl in Hn; lia|done|done].
Qed.

Lemma decode_replace_go_out (bs : list byte) : utf8_valid (decode_replace_go bs) = true.
Proof.
  remember (length bs) as n eqn:En. assert (Hn : (length bs <= n)%nat) by lia. clear En.
  revert bs Hn. induction n as [|n IH]; intros bs Hn.
  { by destruct bs; [|simpl in *; lia]. }
  destruct bs as [|b r]; [done|]. simpl in Hn.
  assert (Hf : forall l, utf8_valid l = true -> utf8_valid (fffd ++ l) = true)
    by (intros l Hl; by apply utf8_valid_app).
  cbn [decode_replace_go].
  destruct (bz b <? 128) eqn:E1.
  { cbn [utf8_valid]. rewrite E1. apply IH. lia. }
  destruct (in_range 194 223 b) eqn:E2.
  { destruct r as [|c1 r1]; [done|]. destruct (cont c1) eqn:Ec.
    - cbn [utf8_valid]. rewrite E1, E2, Ec. apply IH. simpl in *. lia.
    - apply Hf, IH. simpl in *. lia. }
  destruct (in_range 224 239 b) eqn:E3.
  { destruct r as [|c1 r1]; [done|]. destruct (second_ok b c1) eqn:Es.
    - destruct r1 as [|c2 r2]; [done|]. destruct (cont c2) eqn:Ec.
      + cbn [utf8_valid]. rewrite E1, E2, E3, <- (second_ok_3 b c1 E3), Es, Ec.
        apply IH. simpl in *. lia.
      + apply Hf, IH. simpl in *. lia.
    - apply Hf, IH. simpl in *. lia. }
  destruct (in_range 240 244 b) eqn:E4; [|apply Hf, IH; simpl in *; lia].
  destruct r as [|c1 r1]; [done|]. destruct (second_ok b c1) eqn:Es; [|apply Hf, IH; simpl in *; lia].
  destruct r1 as [|c2 r2]; [done|]. destruct (cont c2) eqn:Ec2; [|apply Hf, IH; simpl in *; lia].
  destruct r2 as [|c3 r3]; [done|]. destruct (cont c3) eqn:Ec3; [|apply Hf, IH; simpl in *; lia].
  cbn [utf8_valid]. rewrite E1, E2, E3, E4, <- (second_ok_4 b c1 E4), Es, Ec2, Ec3.
  apply IH. simpl in *. lia.
Qed.

Lemma decode_replace_go_nonempty (bs : list byte) : bs <> [] -> decode_replace_go bs <> [].
Proof.
  destruct bs as [|b r]; [done|]. intros _. cbn [decode_replace_go].
  repeat case_match; done.
Qed.

(** Decoding the reply with [errors="replace"] always gives valid UTF-8, keeps valid UTF-8 unchanged, and turns a non-empty reply into a non-empty string. *)
Theorem decode_replace_utf8 (bs : list byte) :
  utf8_valid (decode_replace_go bs) = true /\
  (utf8_valid bs = true -> decode_replace_go bs = bs) /\
  (bs <> [] -> decode_replace bs <> "").
Proof.
  split; [apply decode_replace_go_out|]. split; [apply decode_replace_go_valid|].
  intros H E. apply (decode_replace_go_nonempty bs H).
  unfold decode_replace in E. destruct (decode_replace_go bs); [done|discriminate].
Qed.

(** ** Examples of the further properties *)


Lemma cli_finish_exec_response_witness :
  In (ESend xe_response) (exec_handle default_config (LineJson (PDict xe_request)) xc_env) /\
  exists text,
    (resp_field xe_response "ok" = Some (PBool false) /\
       cli_finish xe_response = Ok (text, MainExit (PInt 1)))
    \/ (exists code out err, outcome xc_env = Exited code out err /\
          resp_field xe_response "ok" = Some (PBool true) /\
          cli_finish xe_response = Ok (text, MainExit (PInt code))).
Proof.
  assert (H : In (ESend xe_response)
                (exec_handle default_config (LineJson (PDict xe_request)) xc_env))
    by (vm_compute; auto).
  split; [exact H|]. exact (cli_finish_exec_response _ _ _ _ H).
Defined.

Lemma cli_finish_files_response_witness :
  (resp_field c1_response "ok" = Some (PBool true) /\ cli_finish c1_response = Ok (files_ok_text, MainReturn))
  \/ (exists code msg, resp_field c1_response "ok" = Some (PBool false) /\
        resp_field c1_response "error" = Some (PStr code) /\
        cli_finish c1_response = Ok ("❌ Command failed: " +:+ code +:+ nl_str +:+ "   " +:+ msg,
                           MainExit (PInt 1))).
Proof.
  apply (cli_finish_files_response (fun _ => "") default_config (LineJson (PDict c1_request))
           startup_fs "/tmp/out" local_fs). by left.
Defined.

Lemma exec_timeout_output_not_serializable_witness :
  exec_handle default_config (LineJson (PDict xe_request)) c6_env =
    [ESpawn ["echo"; "hi"];
     ESend (err_resp_msg "handler_error" "Object of type bytes is not JSON serializable");
     EShutdown].
Proof.
  rewrite (exec_timeout_output_not_serializable default_config c6_env xe_request
             (PStr "echo") (PList [PStr "hi"]) "echo" ["echo"; "hi"]
             (Some [x7a; x7a; x0a]) None);
    try (vm_compute; reflexivity).
Defined.

Lemma execute_command_first_line_witness :
  execute_command xjson "uname" ["-a"] "operator" xcli_conn =
    (Some (cli_exec_request "uname" ["-a"] "operator"), parse_response xjson [x7b; x7d]).
Proof.
  apply (execute_command_first_line xjson "uname" ["-a"] "operator" xcli_conn
           [[x7b]; [x7d; x0a; x41]] [Ok [x42]] [x7b; x7d] [x41]);
    try reflexivity.
  all: try (repeat constructor; discriminate).
  all: try (intros [H|[H|[]]]; discriminate).
  all: vm_compute; reflexivity.
Defined.

Lemma execute_command_recv_capped_witness :
  recv_chunks (Some max_bytes) 0 [Ok [x41]; Ok [x0a; x42]] = Ok [[x41]; [x0a; x42]] /\
  Z.of_nat (length (concat [[x41]; [x0a; x42]])) < max_bytes + 4096.
Proof.
  assert (H : recv_chunks (Some max_bytes) 0 [Ok [x41]; Ok [x0a; x42]] = Ok [[x41]; [x0a; x42]])
    by (vm_compute; reflexivity).
  split; [exact H|]. apply (execute_command_recv_capped [Ok [x41]; Ok [x0a; x42]]); [|exact H].
  intros ch [Hc|[Hc|[]]]; injection Hc as <-; simpl; lia.
Defined.

Lemma decode_replace_utf8_witness :
  decode_replace_go [xff; x41] = [xef; xbf; xbd; x41] /\
  utf8_valid (decode_replace_go [xff; x41]) = true /\
  decode_replace [xff; x41] <> "".
Proof.
  split; [reflexivity|]. split; [apply (decode_replace_utf8 [xff; x41])|].
  apply (decode_replace_utf8 [xff; x41]). discriminate.
Defined.

(** ** [ForwardRequestHandler.handle]: what is relayed *)

Lemma sent_to_app dst t1 t2 : sent_to dst (t1 ++ t2) = sent_to dst t1 ++ sent_to dst t2.
Proof. apply flat_map_app. Qed.

Lemma sent_to_tagged_pump dst dst' th steps :
  sent_to dst (tagged th (fst (pump dst' steps)))
  = if sock_eqb dst' dst then stream_chunks steps else [].
Proof.
  induction steps as [|[[|b d]| |d] rest IH]; simpl;
    try by destruct (sock_eqb dst' dst).
  destruct (pump dst' rest) as [evs fin]. simpl in *. rewrite IH.
  by destruct (sock_eqb dst' dst).
Qed.

Lemma interleave_sent_to_l dst l r t :
  interleave l r t -> sent_to dst r = [] -> sent_to dst t = sent_to dst l.
Proof.
  induction 1 as [|x l r t _ IH|x l r t _ IH]; intros Hr; [done| |].
  - unfold sent_to in *. simpl. f_equal. by apply IH.
  - unfold sent_to in *. simpl in *. apply app_eq_nil in Hr as [-> Hr]. by apply IH.
Qed.

Lemma interleave_sent_to_r dst l r t :
  interleave l r t -> sent_to dst l = [] -> sent_to dst t = sent_to dst r.
Proof.
  induction 1 as [|x l r t _ IH|x l r t _ IH]; intros Hl; [done| |].
  - unfold sent_to in *. simpl in *. apply app_eq_nil in Hl as [-> Hl]. by apply IH.
  - unfold sent_to in *. simpl. f_equal. by apply IH.
Qed.

Lemma split_on_join c (l : list string) :
  l <> [] -> Forall (fun w => has_char c w = false) l -> split_on c (join_with (String c "") l) = l.
Proof.
  induction l as [|x [|y xs] IH]; intros Hne Hl; [done| |].
  - inversion Hl; subst. by apply split_on_nochar.
  - inversion Hl as [|? ? Hx Hr]; subst.
    assert (E : join_with (String c "") (x :: y :: xs)
                = x +:+ String c (join_with (String c "") (y :: xs))) by reflexivity.
    rewrite E.
    rewrite split_on_app, split_on_nochar by done. simpl. f_equal. by apply IH.
Qed.

(** In every forwarding session, the bytes written to the local service are the chunks of the client before its first end of stream or error, in order, and the bytes written back are those of the local service likewise; nothing is relayed when the target is refused or the connection fails. *)
Theorem forward_relays_streams (cfg : config) (client local : list io_step)
  (connect : res unit) (t : list (thread * fwd_event)) :
  forward_run cfg client local connect t ->
  (sent_to LocalSock t, sent_to ZitiSock t) =
    match forward_decide cfg, connect with
    | FwdDial _ _, Ok _ => (stream_chunks client, stream_chunks local)
    | _, _ => ([], [])
    end.
Proof.
  intros [msg Hd|host port e Hd Hc|host port t' Hd Hc Hil]; rewrite Hd; try rewrite Hc; [done|done|].
  assert (Hc0 : forall dst r, sent_to dst ((TMain, FConnect host port) :: r) = sent_to dst r)
    by done.
  rewrite !Hc0, !sent_to_app.
  assert (Hclose : forall dst, sent_to dst (if snd (pump LocalSock client) && snd (pump ZitiSock local)
                                            then [(TMain, FClose LocalSock)] else []) = [])
    by (intros dst; by case_match).
  rewrite !Hclose, !app_nil_r.
  rewrite (interleave_sent_to_l LocalSock _ _ _ Hil), (interleave_sent_to_r ZitiSock _ _ _ Hil);
    rewrite ?sent_to_tagged_pump; done.
Qed.

Lemma forward_relays_streams_witness :
  (sent_to LocalSock c9_trace, sent_to ZitiSock c9_trace) = ([[x68]], [[x6f; x6b]]).
Proof. rewrite (forward_relays_streams _ _ _ _ _ c9_run). reflexivity. Defined.

(** ** Comma-separated settings *)

Lemma env_list_filter_stripped (l : list string) :
  Forall (fun w => w <> "" /\ strip_ws w = w) l ->
  map strip_ws (List.filter (fun c => negb (String.eqb (strip_ws c) "")) l) = l.
Proof.
  induction 1 as [|w ws [Hw1 Hw3] _ IH]; [done|]. cbn [List.filter].
  rewrite Hw3. destruct (String.eqb_spec w ""); [done|]. cbn [negb map]. rewrite Hw3.
  f_equal. exact IH.
Qed.

(** Parsing a comma-separated setting ([c.strip() for c in s.split(",") if c.strip()]) gives back [l] from [",".join(l)] when the names of [l] are non-empty, free of commas and of surrounding white space; so [ALLOWLIST] is [DEFAULT_ALLOWLIST] when [OPS_EXEC_ALLOWLIST] is unset. *)
Theorem env_list_join (l : list string) :
  Forall (fun w => w <> "" /\ has_char "," w = false /\ strip_ws w = w) l ->
  env_list (join_with "," l) = l.
Proof.
  intros Hl. destruct l as [|x xs]; [done|].
  unfold env_list. rewrite split_on_join; [|done|].
  - apply env_list_filter_stripped. eapply Forall_impl; [exact Hl|]. naive_solver.
  - eapply Forall_impl; [exact Hl|]. naive_solver.
Qed.

Lemma env_list_join_witness :
  env_list (join_with "," ["ls"; "uname"; "whoami"; "echo"]) = ["ls"; "uname"; "whoami"; "echo"].
Proof.
  apply env_list_join. repeat constructor; vm_compute; try reflexivity; discriminate.
Defined.
